(** * go-apns: the APNS binary client (feedback.go)

    A shallow embedding of the packet codec, of the connection handling of
    [ApnsConn] and of the feedback listener, followed by the properties
    established about them.

    Conventions.
    - A Go [[]byte] is a [list byte]; [len] is [Z.of_nat (length _)].
    - Go fixed-width integers are [Z] with the conversion written out
      ([uint16], [int16], ...).
    - A Go [error] value is an [option error]; [None] is [nil].
    - A function that may hit a Go run-time panic returns an [outcome].
    - The network, the TLS layer and the clock are an oracle [Net]; the
      k-th call of a primitive receives the k-th answer of its oracle. *)

From Stdlib Require Import ZArith String Ascii List Bool Lia DecimalString.
From coqutil Require Import Byte Z.bitblast.
Import ListNotations.
Local Open Scope Z_scope.

(** ** Go basics *)

Module Go.

Definition len {A : Type} (s : list A) : Z := Z.of_nat (length s).

Definition uint8 (z : Z) : Z := z mod 2 ^ 8.
Definition uint16 (z : Z) : Z := z mod 2 ^ 16.
Definition uint32 (z : Z) : Z := z mod 2 ^ 32.
Definition int16 (z : Z) : Z := (z + 2 ^ 15) mod 2 ^ 16 - 2 ^ 15.
Definition int32 (z : Z) : Z := (z + 2 ^ 31) mod 2 ^ 32 - 2 ^ 31.

(** Errors that the package creates or tells apart. *)
Inductive error : Type :=
| io_EOF                              (* io.EOF *)
| io_ErrUnexpectedEOF                 (* io.ErrUnexpectedEOF *)
| errors_New (text : string)          (* errors.New(text) *)
| net_Error (timeout : bool)          (* a net.Error; Timeout() = timeout *)
| binary_invalid_type.                (* binary.Write on a value without fixed size *)

Definition is_EOF (e : error) : bool :=
  match e with io_EOF => true | _ => false end.

(** [e2, ok := err.(net.Error); ok && e2.Timeout()] *)
Definition is_net_timeout (e : error) : bool :=
  match e with net_Error t => t | _ => false end.

(** [err.Error()] *)
Definition Error (e : error) : string :=
  match e with
  | io_EOF => "EOF"
  | io_ErrUnexpectedEOF => "unexpected EOF"
  | errors_New text => text
  | net_Error true => "i/o timeout"
  | net_Error false => "network error"
  | binary_invalid_type => "binary.Write: invalid type"
  end.

(** What a call produces: its results, or a run-time panic. *)
Inductive outcome (A : Type) : Type :=
| Returns (a : A)
| Fails (e : error)
| RuntimePanic (what : string).
Arguments Returns {A} a.
Arguments Fails {A} e.
Arguments RuntimePanic {A} what.

(** The slice expression [s[lo:hi]] on a slice whose capacity equals its
    length: it panics unless [0 <= lo <= hi <= cap(s)]. *)
Definition slice {A : Type} (s : list A) (lo hi : Z) : option (list A) :=
  if (0 <=? lo) && (lo <=? hi) && (hi <=? len s)
  then Some (firstn (Z.to_nat (hi - lo)) (skipn (Z.to_nat lo) s))
  else None.

(** time.Time as nanoseconds since the Unix epoch, time.Duration as
    nanoseconds. *)
Definition Time := Z.
Definition Duration := Z.
Definition Millisecond : Duration := 1000000.
Definition Second : Duration := 1000000000.
Definition Time_Add (t : Time) (d : Duration) : Time := t + d.
Definition Time_Unix (t : Time) : Z := t / 1000000000.

(** strconv-style decimal rendering, as the fmt verbs print an int. *)
Definition itoa (z : Z) : string := NilZero.string_of_int (Z.to_int z).

End Go.
Import Go.

(** ** encoding/hex *)

Module hex.

Definition hextable : string := "0123456789abcdef".

Definition digit (i : Z) : ascii :=
  match String.get (Z.to_nat i) hextable with
  | Some c => c
  | None => "0"%char
  end.

(** [dst[i*2] = hextable[v>>4]; dst[i*2+1] = hextable[v&0x0f]] *)
Fixpoint EncodeToString (src : list byte) : string :=
  match src with
  | [] => EmptyString
  | v :: rest =>
      String (digit (Z.shiftr (byte.unsigned v) 4))
        (String (digit (Z.land (byte.unsigned v) 15)) (EncodeToString rest))
  end.

End hex.

(** ** encoding/binary with [binary.BigEndian] *)

Module binary.

(** [uint16(b[1]) | uint16(b[0])<<8] *)
Definition BigEndian_Uint16 (b0 b1 : byte) : Z :=
  Z.lor (byte.unsigned b1) (Z.shiftl (byte.unsigned b0) 8).

(** [uint32(b[3]) | uint32(b[2])<<8 | uint32(b[1])<<16 | uint32(b[0])<<24] *)
Definition BigEndian_Uint32 (b0 b1 b2 b3 : byte) : Z :=
  Z.lor (Z.lor (Z.lor (byte.unsigned b3) (Z.shiftl (byte.unsigned b2) 8))
               (Z.shiftl (byte.unsigned b1) 16))
        (Z.shiftl (byte.unsigned b0) 24).

(** [b[0] = byte(v >> 8); b[1] = byte(v)] *)
Definition BigEndian_PutUint16 (v : Z) : list byte :=
  [byte.of_Z (Z.shiftr v 8); byte.of_Z v].

Definition BigEndian_PutUint32 (v : Z) : list byte :=
  [byte.of_Z (Z.shiftr v 24); byte.of_Z (Z.shiftr v 16);
   byte.of_Z (Z.shiftr v 8); byte.of_Z v].

(** A [bytes.Reader]: the unread part of its slice. *)
Definition Reader := list byte.
Definition NewReader (b : list byte) : Reader := b.

(** [io.ReadFull] of [n] bytes: [io.EOF] when nothing is left,
    [io.ErrUnexpectedEOF] when fewer than [n] bytes are. *)
Definition ReadFull (r : Reader) (n : nat) : (list byte + error) * Reader :=
  match r with
  | [] => (inr io_EOF, [])
  | _ => if (n <=? length r)%nat
         then (inl (firstn n r), skipn n r)
         else (inr io_ErrUnexpectedEOF, [])
  end.

(** [binary.Read(r, binary.BigEndian, &x)] with [x] an [int32]. *)
Definition Read_int32 (r : Reader) : (Z + error) * Reader :=
  match ReadFull r 4 with
  | (inl [b0; b1; b2; b3], r') => (inl (int32 (BigEndian_Uint32 b0 b1 b2 b3)), r')
  | (inl _, r') => (inr io_ErrUnexpectedEOF, r')
  | (inr e, r') => (inr e, r')
  end.

(** [binary.Read(r, binary.BigEndian, &x)] with [x] an [int16]. *)
Definition Read_int16 (r : Reader) : (Z + error) * Reader :=
  match ReadFull r 2 with
  | (inl [b0; b1], r') => (inl (int16 (BigEndian_Uint16 b0 b1)), r')
  | (inl _, r') => (inr io_ErrUnexpectedEOF, r')
  | (inr e, r') => (inr e, r')
  end.

(** The dynamically typed values handed to [binary.Write]. *)
Inductive value : Type :=
| V_uint8 (v : Z)
| V_uint16 (v : Z)
| V_uint32 (v : Z)
| V_bytes (b : list byte)
| V_int (v : Z).          (* a Go [int]: not of fixed size *)

(** [binary.Write(w, binary.BigEndian, v)] on a [bytes.Buffer] [w]: the
    new contents of the buffer, or the error. *)
Definition Write (w : list byte) (v : value) : list byte * option error :=
  match v with
  | V_uint8 x => (w ++ [byte.of_Z x], None)
  | V_uint16 x => (w ++ BigEndian_PutUint16 x, None)
  | V_uint32 x => (w ++ BigEndian_PutUint32 x, None)
  | V_bytes b => (w ++ b, None)
  | V_int _ => (w, Some binary_invalid_type)
  end.

End binary.

(** ** The feedback record decoder *)

Record ApnsFeedbackMessage : Type := {
  Time_t : Z;                (* int32 *)
  DeviceToken : string
}.

Definition parseAppleFeedbackMessage (readb : list byte)
  : outcome ApnsFeedbackMessage :=
  if len readb <? 6 then Fails (errors_New "Not enough data in slice")
  else
    let r := binary.NewReader readb in
    match binary.Read_int32 r with
    | (inr err, _) => Fails err
    | (inl time_t, r) =>
        match binary.Read_int16 r with
        | (inr err, _) => Fails err
        | (inl size, _) =>
            if 6 + size >? len readb
            then Fails (errors_New
              "The Message size for the DeviceToken is bigger than the given buffer")
            else
              match slice readb 6 (6 + size) with
              | Some token =>
                  Returns {| Time_t := time_t;
                             DeviceToken := hex.EncodeToString token |}
              | None => RuntimePanic "slice bounds out of range"
              end
        end
    end.

(** ** The packet encoders *)

(** [bwrite(w, values...)]: writes the values in turn and stops at the
    first error. *)
Fixpoint bwrite (w : list byte) (values : list binary.value)
  : list byte * option error :=
  match values with
  | [] => (w, None)
  | v :: rest =>
      match binary.Write w v with
      | (w', Some err) => (w', Some err)
      | (w', None) => bwrite w' rest
      end
  end.

(** [createCommandOnePacket]; [now] is what [time.Now()] returned.  The
    result is [(pdu, nil)] or [(nil, err)]. *)
Definition createCommandOnePacket (now : Time) (transactionId : Z)
  (expiration : Duration) (token payload : list byte)
  : list byte * option error :=
  let expirationTime := uint32 (Time_Unix (Time_Add now expiration)) in
  let buffer := [] in
  match bwrite buffer [binary.V_uint8 1;
                       binary.V_uint32 transactionId;
                       binary.V_uint32 expirationTime;
                       binary.V_uint16 (uint16 (len token));
                       binary.V_bytes token;
                       binary.V_uint16 (uint16 (len payload));
                       binary.V_bytes payload] with
  | (_, Some err) => ([], Some err)
  | (pdu, None) => (pdu, None)
  end.

(** [createCommandZeroPacket] ignores its first two arguments. *)
Definition createCommandZeroPacket (transactionId : Z)
  (expiration : Duration) (token payload : list byte)
  : list byte * option error :=
  let buffer := [] in
  match bwrite buffer [binary.V_uint8 0;
                       binary.V_uint16 (uint16 (len token));
                       binary.V_bytes token;
                       binary.V_uint16 (uint16 (len payload));
                       binary.V_bytes payload] with
  | (_, Some err) => ([], Some err)
  | (pdu, None) => (pdu, None)
  end.

(** ** The status table *)

Definition errText : list (Z * string) :=
  [ (0, "No errors encountered");
    (1, "Processing Errors");
    (2, "Missing Device Token");
    (3, "Missing Topic");
    (4, "Missing Payload");
    (5, "Invalid Token Size");
    (6, "Invalid Topic Size");
    (7, "Invalid Payload Size");
    (8, "Invalid Token");
    (255, "None (Unknown)") ]%string.

(** [m[k]] on a Go map: the zero value when the key is absent. *)
Fixpoint map_index (m : list (Z * string)) (k : Z) : string :=
  match m with
  | [] => EmptyString
  | (k', v) :: rest => if k' =? k then v else map_index rest k
  end.

(** ** The client and the world it runs in *)

(** A [*tls.Conn]: which dialled connection it wraps, and what has
    happened to it. *)
Record tlsConn : Type := {
  conn_id : nat;
  handshake_done : bool;
  conn_closed : bool
}.

(** [ApnsConn] without [tls_cfg] (fixed at construction) and [mu] (see
    [E_Lock]). *)
Record ApnsConn : Type := {
  tlsconn : option tlsConn;
  endpoint : string;
  ReadTimeout : Duration;
  transactionId : Z;             (* uint32 *)
  MAX_PAYLOAD_SIZE : Z;          (* int *)
  connected : bool
}.

(** [NewClient] once the key pair has been loaded. *)
Definition NewClient (endpoint : string) : ApnsConn :=
  {| tlsconn := None;
     endpoint := endpoint;
     ReadTimeout := 150 * Millisecond;
     transactionId := 0;
     MAX_PAYLOAD_SIZE := 256;
     connected := false |}.

Definition NewFeedbackClient (endpoint : string) : ApnsConn :=
  NewClient endpoint.

(** What the program does to the outside, in order. *)
Inductive event : Type :=
| E_Lock                                        (* client.mu.Lock() *)
| E_Unlock                                      (* client.mu.Unlock() *)
| E_Dial (addr : string)                        (* net.Dial("tcp", addr) *)
| E_Handshake (id : nat)
| E_Close (id : nat)
| E_Write (id : nat) (pkt : list byte)
| E_SetReadDeadline (id : nat) (t : option Time)  (* [None] is time.Time{} *)
| E_Read (id : nat) (size : nat)                (* a read into [size] bytes *)
| E_Sleep (d : Duration)
| E_Send (msg : ApnsFeedbackMessage)            (* outChan <- msg *)
| E_CloseChan                                   (* close(outChan) *)
| E_Panic (what : string).

(** The answers of the outside: the k-th call of each primitive gets the
    k-th answer. *)
Record Net : Type := {
  dial_result : nat -> option error;
  handshake_result : nat -> option error;
  close_result : nat -> option error;
  write_result : nat -> option error;
  read_result : nat -> list byte * option error;
  now_result : nat -> Time
}.

(** How many calls of each primitive have been made. *)
Record Calls : Type := {
  n_Dial : nat;
  n_Handshake : nat;
  n_Close : nat;
  n_Write : nat;
  n_Read : nat;
  n_Now : nat
}.

Record World : Type := {
  client : ApnsConn;
  calls : Calls;
  trace : list event
}.

Definition no_calls : Calls :=
  {| n_Dial := 0; n_Handshake := 0; n_Close := 0;
     n_Write := 0; n_Read := 0; n_Now := 0 |}.

Definition new_world (endpoint : string) : World :=
  {| client := NewClient endpoint; calls := no_calls; trace := [] |}.

(** Field updates. *)
Definition set_tlsconn (h : option tlsConn) (c : ApnsConn) : ApnsConn :=
  {| tlsconn := h; endpoint := endpoint c; ReadTimeout := ReadTimeout c;
     transactionId := transactionId c;
     MAX_PAYLOAD_SIZE := MAX_PAYLOAD_SIZE c; connected := connected c |}.

Definition set_connected (b : bool) (c : ApnsConn) : ApnsConn :=
  {| tlsconn := tlsconn c; endpoint := endpoint c;
     ReadTimeout := ReadTimeout c; transactionId := transactionId c;
     MAX_PAYLOAD_SIZE := MAX_PAYLOAD_SIZE c; connected := b |}.

Definition set_transactionId (t : Z) (c : ApnsConn) : ApnsConn :=
  {| tlsconn := tlsconn c; endpoint := endpoint c;
     ReadTimeout := ReadTimeout c; transactionId := t;
     MAX_PAYLOAD_SIZE := MAX_PAYLOAD_SIZE c; connected := connected c |}.

Definition with_client (f : ApnsConn -> ApnsConn) (w : World) : World :=
  {| client := f (client w); calls := calls w; trace := trace w |}.

Definition with_calls (f : Calls -> Calls) (w : World) : World :=
  {| client := client w; calls := f (calls w); trace := trace w |}.

Definition record (e : event) (w : World) : World :=
  {| client := client w; calls := calls w; trace := trace w ++ [e] |}.

Definition tick_Dial (k : Calls) : Calls :=
  {| n_Dial := S (n_Dial k); n_Handshake := n_Handshake k;
     n_Close := n_Close k; n_Write := n_Write k; n_Read := n_Read k;
     n_Now := n_Now k |}.
Definition tick_Handshake (k : Calls) : Calls :=
  {| n_Dial := n_Dial k; n_Handshake := S (n_Handshake k);
     n_Close := n_Close k; n_Write := n_Write k; n_Read := n_Read k;
     n_Now := n_Now k |}.
Definition tick_Close (k : Calls) : Calls :=
  {| n_Dial := n_Dial k; n_Handshake := n_Handshake k;
     n_Close := S (n_Close k); n_Write := n_Write k; n_Read := n_Read k;
     n_Now := n_Now k |}.
Definition tick_Write (k : Calls) : Calls :=
  {| n_Dial := n_Dial k; n_Handshake := n_Handshake k;
     n_Close := n_Close k; n_Write := S (n_Write k); n_Read := n_Read k;
     n_Now := n_Now k |}.
Definition tick_Read (k : Calls) : Calls :=
  {| n_Dial := n_Dial k; n_Handshake := n_Handshake k;
     n_Close := n_Close k; n_Write := n_Write k; n_Read := S (n_Read k);
     n_Now := n_Now k |}.
Definition tick_Now (k : Calls) : Calls :=
  {| n_Dial := n_Dial k; n_Handshake := n_Handshake k;
     n_Close := n_Close k; n_Write := n_Write k; n_Read := n_Read k;
     n_Now := S (n_Now k) |}.

(** ** Computations: state, trace, and panics *)

Inductive result (A : Type) : Type :=
| Val (a : A)
| Panicked (what : string).
Arguments Val {A} a.
Arguments Panicked {A} what.

Definition M (A : Type) : Type := World -> result A * World.

Definition ret {A : Type} (a : A) : M A := fun w => (Val a, w).

Definition bind {A B : Type} (m : M A) (k : A -> M B) : M B :=
  fun w =>
    match m w with
    | (Val a, w') => k a w'
    | (Panicked what, w') => (Panicked what, w')
    end.

Declare Scope go_scope.
Delimit Scope go_scope with go.
Notation "x <- m ;; k" := (bind m (fun x => k))
  (at level 61, m at next level, right associativity) : go_scope.
Notation "m ;;; k" := (bind m (fun _ => k))
  (at level 61, right associativity) : go_scope.
Local Open Scope go_scope.

Definition get_client : M ApnsConn := fun w => (Val (client w), w).

Definition update_client (f : ApnsConn -> ApnsConn) : M unit :=
  fun w => (Val tt, with_client f w).

Definition emit (e : event) : M unit := fun w => (Val tt, record e w).

(** [panic(v)]; the trace keeps the reason. *)
Definition panic {A : Type} (what : string) : M A :=
  fun w => (Panicked what, record (E_Panic what) w).

Definition nil_dereference : string :=
  "invalid memory address or nil pointer dereference".

(** A method call through [client.tlsconn]. *)
Definition with_tlsconn {A : Type} (f : tlsConn -> M A) : M A :=
  c <- get_client ;;
  match tlsconn c with
  | Some h => f h
  | None => panic nil_dereference
  end.

(** ** Primitives, connect, shutdown, SendPayload, StartListening *)

Section Client.

Variable net : Net.

(** [net.Dial("tcp", client.endpoint)]: the number of the new connection,
    or the error. *)
Definition net_Dial : M (nat + error) :=
  fun w =>
    let k := n_Dial (calls w) in
    let w' := with_calls tick_Dial (record (E_Dial (endpoint (client w))) w) in
    match dial_result net k with
    | None => (Val (inl k), w')
    | Some err => (Val (inr err), w')
    end.

(** [tls.Client(conn, &client.tls_cfg)] *)
Definition tls_Client (id : nat) : tlsConn :=
  {| conn_id := id; handshake_done := false; conn_closed := false |}.

(** [client.tlsconn.Handshake()] *)
Definition tls_Handshake : M (option error) :=
  with_tlsconn (fun h w =>
    let k := n_Handshake (calls w) in
    let w' := with_calls tick_Handshake (record (E_Handshake (conn_id h)) w) in
    match handshake_result net k with
    | None =>
        (Val None,
         with_client (set_tlsconn
           (Some {| conn_id := conn_id h; handshake_done := true;
                    conn_closed := conn_closed h |})) w')
    | Some err => (Val (Some err), w')
    end).

(** [client.tlsconn.Close()] *)
Definition tls_Close : M (option error) :=
  with_tlsconn (fun h w =>
    let k := n_Close (calls w) in
    let w' := with_calls tick_Close (record (E_Close (conn_id h)) w) in
    (Val (close_result net k),
     with_client (set_tlsconn
       (Some {| conn_id := conn_id h; handshake_done := handshake_done h;
                conn_closed := true |})) w')).

(** [client.tlsconn.Write(pkt)] *)
Definition tls_Write (pkt : list byte) : M (option error) :=
  with_tlsconn (fun h w =>
    let k := n_Write (calls w) in
    (Val (write_result net k),
     with_calls tick_Write (record (E_Write (conn_id h) pkt) w))).

(** [client.tlsconn.SetReadDeadline(t)] *)
Definition tls_SetReadDeadline (t : option Time) : M unit :=
  with_tlsconn (fun h => emit (E_SetReadDeadline (conn_id h) t)).

(** A [Read] into a zeroed array of [size] bytes on connection [id]:
    the array afterwards, [n], and the error. *)
Definition read_into (id : nat) (size : nat) : M (list byte * Z * option error) :=
  fun w =>
    let k := n_Read (calls w) in
    let '(data, err) := read_result net k in
    let data := firstn size data in
    let readb := data ++ repeat (byte.of_Z 0) (size - length data) in
    (Val (readb, len data, err),
     with_calls tick_Read (record (E_Read id size) w)).

(** [client.tlsconn.Read(readb[:])] *)
Definition tls_Read (size : nat) : M (list byte * Z * option error) :=
  with_tlsconn (fun h => read_into (conn_id h) size).

(** [time.Now()] *)
Definition time_Now : M Time :=
  fun w => (Val (now_result net (n_Now (calls w))), with_calls tick_Now w).

(** [time.Sleep(d)] *)
Definition time_Sleep (d : Duration) : M unit := emit (E_Sleep d).

Definition shutdown : M (option error) :=
  c <- get_client ;;
  match tlsconn c with
  | Some _ =>
      err <- tls_Close ;;
      update_client (set_connected false) ;;;
      ret err
  | None => ret None
  end.

Definition connect : M (option error) :=
  c <- get_client ;;
  if connected c then ret None
  else
    (match tlsconn c with
     | Some _ => _ <- shutdown ;; ret tt
     | None => ret tt
     end) ;;;
    conn <- net_Dial ;;
    match conn with
    | inr err => ret (Some err)
    | inl id =>
        update_client (set_tlsconn (Some (tls_Client id))) ;;;
        err <- tls_Handshake ;;
        (match err with
         | None => update_client (set_connected true)
         | Some _ => ret tt
         end) ;;;
        ret err
    end.

(** [fmt.Sprintf] of a format without verbs and one [int] operand. *)
Definition Sprintf_extra_int (format : string) (operand : Z) : string :=
  (format ++ "%!(EXTRA int=" ++ itoa operand ++ ")")%string.

(** [fmt.Sprintf("Unknown error code %s ", s)] *)
Definition Sprintf_unknown_code (s : string) : string :=
  ("Unknown error code " ++ s ++ " ")%string.

(** The part of [SendPayload] from the status switch on; [readb] is the
    6-byte array and [n] the count of the read. *)
Definition check_reply (readb : list byte) (n : Z) : option error :=
  if n >? 1 then
    let status := uint8 (byte.unsigned (nth 1 readb (byte.of_Z 0))) in
    if status =? 0 then None
    else if existsb (Z.eqb status) [1; 2; 3; 4; 5; 6; 7; 8; 255]
    then Some (errors_New (map_index errText status))
    else Some (errors_New (Sprintf_unknown_code
                 (hex.EncodeToString (firstn (Z.to_nat n) readb))))
  else None.

(** [SendPayload] between the registration of its deferred calls and
    their execution: the value left in [err]. *)
Definition SendPayload_body (token payload : list byte)
  (expiration : Duration) : M (option error) :=
  err <- connect ;;
  match err with
  | Some e => ret (Some e)
  | None =>
      update_client (fun c => set_transactionId (uint32 (transactionId c + 1)) c) ;;;
      c <- get_client ;;
      now <- time_Now ;;
      match createCommandOnePacket now (transactionId c) expiration token payload with
      | (_, Some e) => ret (Some e)
      | (pkt, None) =>
          err <- tls_Write pkt ;;
          match err with
          | Some e => ret (Some e)
          | None =>
              now <- time_Now ;;
              tls_SetReadDeadline (Some (Time_Add now (ReadTimeout c))) ;;;
              r <- tls_Read 6 ;;
              let '(readb, n, err) := r in
              match err with
              | Some e => if is_net_timeout e then ret None else ret (Some e)
              | None => ret (check_reply readb n)
              end
          end
      end
  end.

(** Runs [body], then the deferred calls; a panic in [body] leaves [err]
    at the value it had, which is [nil] at every call that can panic. *)
Definition with_deferred (body : M (option error))
  (deferred : option error -> M unit) : M (option error) :=
  fun w =>
    match body w with
    | (Val err, w') =>
        match deferred err w' with
        | (Val _, w'') => (Val err, w'')
        | (Panicked what, w'') => (Panicked what, w'')
        end
    | (Panicked what, w') =>
        match deferred None w' with
        | (_, w'') => (Panicked what, w'')
        end
    end.

Definition SendPayload (token payload : list byte) (expiration : Duration)
  : M (option error) :=
  c <- get_client ;;
  if len payload >? MAX_PAYLOAD_SIZE c then
    ret (Some (errors_New
      (Sprintf_extra_int "The payload exceeds maximum allowed"
         (MAX_PAYLOAD_SIZE c))))
  else
    emit E_Lock ;;;
    with_deferred (SendPayload_body token payload expiration)
      (fun err =>
         (* deferred last, run first *)
         (match err with
          | Some _ => _ <- shutdown ;; ret tt
          | None => ret tt
          end) ;;;
         (* defer client.mu.Unlock() *)
         emit E_Unlock).

(** [bufio.NewReader(client.tlsconn)]: the connection the reader wraps,
    [None] for a nil pointer. *)
Definition bufio_NewReader : M (option nat) :=
  c <- get_client ;;
  ret (option_map conn_id (tlsconn c)).

(** [buff_reader.Read(readb[:])] with [readb] of [4 + 2 + 32] bytes. *)
Definition bufio_Read (buff_reader : option nat)
  : M (list byte * Z * option error) :=
  match buff_reader with
  | Some id => read_into id (4 + 2 + 32)
  | None => panic nil_dereference
  end.

(** [for count := 0; count < 3; count += 1 { ... }] of [StartListening],
    with [count = 3 - remaining]; returns the reader in use afterwards. *)
Fixpoint reconnect_loop (remaining : nat) (buff_reader : option nat)
  : M (option nat) :=
  match remaining with
  | O => ret buff_reader                       (* count < 3 fails *)
  | S remaining' =>
      let count := 3 - Z.of_nat remaining in
      _ <- shutdown ;;
      time_Sleep (30 * Second) ;;;
      err <- connect ;;
      match err with
      | None =>
          tls_SetReadDeadline None ;;;
          bufio_NewReader                      (* break *)
      | Some _ =>
          if count =? 3
          then panic "Failed reconnecting more than 3 times to the feedback service"
          else reconnect_loop remaining' buff_reader
      end
  end.

(** One turn of the listener's [for { ... }]. *)
Definition listen_iteration (buff_reader : option nat) : M (option nat) :=
  r <- bufio_Read buff_reader ;;
  let '(readb, n, err) := r in
  match err with
  | Some e =>
      if is_EOF e then reconnect_loop 3 buff_reader
      else emit E_CloseChan ;;; panic (Error e)
  | None =>
      match parseAppleFeedbackMessage (firstn (Z.to_nat n) readb) with
      | Returns msg => emit (E_Send msg) ;;; ret buff_reader
      | Fails e => emit E_CloseChan ;;; panic (Error e)
      | RuntimePanic what => panic what
      end
  end.

(** The first [turns] turns of the loop. *)
Fixpoint listen (turns : nat) (buff_reader : option nat) : M (option nat) :=
  match turns with
  | O => ret buff_reader
  | S turns' =>
      buff_reader' <- listen_iteration buff_reader ;;
      listen turns' buff_reader'
  end.

(** [StartListening], the goroutine observed for [turns] turns of its
    loop: [Val] when it is still running then. *)
Definition StartListening (turns : nat) : M unit :=
  err <- connect ;;
  match err with
  | Some e => panic (Error e)
  | None =>
      tls_SetReadDeadline None ;;;
      buff_reader <- bufio_NewReader ;;
      _ <- listen turns buff_reader ;;
      ret tt
  end.

End Client.

(** * Vocabulary of the properties *)

(** ** The wire formats, as the protocol describes them *)

Module Wire.

(** An unsigned field of 1, 2 or 4 bytes, most significant byte first. *)
Definition u8 (n : Z) : list byte := [byte.of_Z n].
Definition u16 (n : Z) : list byte := [byte.of_Z (n / 2 ^ 8); byte.of_Z n].
Definition u32 (n : Z) : list byte :=
  [byte.of_Z (n / 2 ^ 24); byte.of_Z (n / 2 ^ 16); byte.of_Z (n / 2 ^ 8);
   byte.of_Z n].

(** [u8(1) | u32 transactionId | u32 expirationEpoch | u16 tokenLen | token
     | u16 payloadLen | payload] *)
Definition extended_push (transactionId expirationEpoch : Z)
  (token payload : list byte) : list byte :=
  u8 1 ++ u32 transactionId ++ u32 expirationEpoch
    ++ u16 (len token) ++ token ++ u16 (len payload) ++ payload.

(** [u32 timestampEpoch | u16 tokenLen | token] *)
Definition feedback_record (timestamp : Z) (token : list byte) : list byte :=
  u32 timestamp ++ u16 (len token) ++ token.

End Wire.

(** The token length as the wire format declares it: the unsigned 16-bit
    number at bytes 4 and 5. *)
Definition declared_token_length (readb : list byte) : Z :=
  binary.BigEndian_Uint16 (nth 4 readb (byte.of_Z 0)) (nth 5 readb (byte.of_Z 0)).

(** The handle is present, has completed its handshake, and has not been
    closed. *)
Definition live (c : ApnsConn) : bool :=
  match tlsconn c with
  | Some h => handshake_done h && negb (conn_closed h)
  | None => false
  end.

(** The flag agrees with the state of the handle. *)
Definition conn_invariant (c : ApnsConn) : Prop := connected c = live c.

(** ** Histories of a client *)

(** The operations a caller in the package can apply to a client. *)
Inductive operation : Type :=
| Op_connect
| Op_shutdown
| Op_SendPayload (token payload : list byte) (expiration : Duration).

Definition perform (net : Net) (op : operation) (w : World) : World :=
  match op with
  | Op_connect => snd (connect net w)
  | Op_shutdown => snd (shutdown net w)
  | Op_SendPayload token payload expiration =>
      snd (SendPayload net token payload expiration w)
  end.

(** The worlds a freshly constructed client can get into. *)
Inductive reachable (net : Net) : World -> Prop :=
| reach_new (endpoint : string) : reachable net (new_world endpoint)
| reach_step (w : World) (op : operation) :
    reachable net w -> reachable net (perform net op w).

(** ** Sends that get as far as the reply *)

(** The payload is not too large, [connect] succeeds (the client is
    connected, or the next dial and handshake succeed), and the next
    write succeeds. *)
Definition reaches_read (net : Net) (w : World) (payload : list byte) : Prop :=
  len payload <= MAX_PAYLOAD_SIZE (client w)
  /\ (connected (client w) = true
      \/ (dial_result net (n_Dial (calls w)) = None
          /\ handshake_result net (n_Handshake (calls w)) = None))
  /\ write_result net (n_Write (calls w)) = None.

(** What [SendPayload] makes of the answer to its read. *)
Definition reply_of (answer : list byte * option error) : option error :=
  let '(data, err) := answer in
  let frame := firstn 6 data in
  match err with
  | Some e => if is_net_timeout e then None else Some e
  | None =>
      check_reply (frame ++ repeat (byte.of_Z 0) (6 - length frame)) (len frame)
  end.

(** ** Concrete environments *)

(** Every dial, handshake, close and write succeeds, and every read is
    answered by [answer]. *)
Definition answering (answer : list byte * option error) : Net :=
  {| dial_result := fun _ => None;
     handshake_result := fun _ => None;
     close_result := fun _ => None;
     write_result := fun _ => None;
     read_result := fun _ => answer;
     now_result := fun _ => 1351555200 * Second |}.

(** The first dial and handshake succeed; afterwards every read hits the
    end of the stream and every dial is refused. *)
Definition broken_link : Net :=
  {| dial_result := fun k => match k with
                             | O => None
                             | S _ => Some (net_Error false)
                             end;
     handshake_result := fun _ => None;
     close_result := fun _ => None;
     write_result := fun _ => None;
     read_result := fun _ => ([], Some io_EOF);
     now_result := fun _ => 1351555200 * Second |}.

(** Endpoints: the two feedback constants of the package, and a gateway
    address for the examples of sends. *)
Definition APPLE_FEEDBACK : string := "feedback.push.apple.com:2196".
Definition APPLE_FEEDBACK_SANDBOX : string := "feedback.sandbox.push.apple.com:2196".
Definition gateway : string := "gateway.push.apple.com:2195".

(** A client that has connected and then shut down. *)
Definition shut_down_client : World :=
  perform (answering ([], None)) Op_shutdown
    (perform (answering ([], None)) Op_connect (new_world gateway)).

(** The events by which the listener ends its output. *)
Definition fatal (e : event) : bool :=
  match e with
  | E_Panic _ | E_CloseChan => true
  | _ => false
  end.

(** ** Reading the header of a feedback buffer *)

(** The timestamp a buffer carries in bytes 0 to 3, as [Time_t] holds it. *)
Definition declared_timestamp (readb : list byte) : Z :=
  int32 (binary.BigEndian_Uint32
           (nth 0 readb (byte.of_Z 0)) (nth 1 readb (byte.of_Z 0))
           (nth 2 readb (byte.of_Z 0)) (nth 3 readb (byte.of_Z 0))).

Definition err_not_enough_data : error :=
  errors_New "Not enough data in slice".

Definition err_token_exceeds_buffer : error :=
  errors_New
    "The Message size for the DeviceToken is bigger than the given buffer".

(** The bytes of the token a buffer declares: the declared number of bytes
    after the header. *)
Definition declared_token (readb : list byte) : list byte :=
  firstn (Z.to_nat (declared_token_length readb)) (skipn 6 readb).

(** The characters of a string. *)
Fixpoint chars (s : string) : list ascii :=
  match s with
  | EmptyString => []
  | String c rest => c :: chars rest
  end.

(** [u8(0) | u16 tokenLen | token | u16 payloadLen | payload], the layout
    of the packet without transaction id and expiration. *)
Definition legacy_push_format (token payload : list byte) : list byte :=
  Wire.u8 0 ++ Wire.u16 (len token) ++ token
    ++ Wire.u16 (len payload) ++ payload.

(** ** Events of one kind *)

Definition is_lock (e : event) : bool :=
  match e with
  | E_Lock | E_Unlock => true
  | _ => false
  end.

(** A handle once its handshake has been completed. *)
Definition handshaken (h : tlsConn) : tlsConn :=
  {| conn_id := conn_id h; handshake_done := true;
     conn_closed := conn_closed h |}.


(** A handle after [Close]. *)
Definition closed_handle (h : tlsConn) : tlsConn :=
  {| conn_id := conn_id h; handshake_done := handshake_done h;
     conn_closed := true |}.

(** ** Sends that get as far as the write *)

(** The payload is not too large and [connect] succeeds. *)
Definition reaches_write (net : Net) (w : World) (payload : list byte) : Prop :=
  len payload <= MAX_PAYLOAD_SIZE (client w)
  /\ (connected (client w) = true
      \/ (dial_result net (n_Dial (calls w)) = None
          /\ handshake_result net (n_Handshake (calls w)) = None)).

(** [connect] fails with [e] on a client that is not connected: the dial
    is refused, or it is accepted and the handshake fails. *)
Definition connect_fails (net : Net) (w : World) (e : error) : Prop :=
  connected (client w) = false
  /\ (dial_result net (n_Dial (calls w)) = Some e
      \/ (dial_result net (n_Dial (calls w)) = None
          /\ handshake_result net (n_Handshake (calls w)) = Some e)).

(** ** More concrete environments *)

(** Every dial is refused. *)
Definition no_route : Net :=
  {| dial_result := fun _ => Some (net_Error false);
     handshake_result := fun _ => None;
     close_result := fun _ => None;
     write_result := fun _ => None;
     read_result := fun _ => ([], None);
     now_result := fun _ => 1351555200 * Second |}.

(** Dials and handshakes succeed, every write fails. *)
Definition broken_pipe : Net :=
  {| dial_result := fun _ => None;
     handshake_result := fun _ => None;
     close_result := fun _ => None;
     write_result := fun _ => Some (net_Error false);
     read_result := fun _ => ([], None);
     now_result := fun _ => 1351555200 * Second |}.

(** ** What the listener's consumer sees *)

Definition is_channel_event (e : event) : bool :=
  match e with
  | E_Send _ | E_CloseChan => true
  | _ => false
  end.

(** The world after the listener's read on connection [id]. *)
Definition after_read (id : nat) (w : World) : World :=
  with_calls tick_Read (record (E_Read id 38) w).

(** A connection that delivers two records, one per read, and then
    silence. *)
Definition two_records : Net :=
  {| dial_result := fun _ => None;
     handshake_result := fun _ => None;
     close_result := fun _ => None;
     write_result := fun _ => None;
     read_result := fun k =>
       match k with
       | O => (map byte.of_Z [0; 0; 0; 1; 0; 2; 171; 205], None)
       | S O => (map byte.of_Z [0; 0; 0; 2; 0; 1; 239], None)
       | _ => ([], None)
       end;
     now_result := fun _ => 1351555200 * Second |}.

(** * The earlier client of the package: [apnsConn]

    The same file keeps the first version of the client: a struct without
    connected flag, transaction counter or size limit, with [Connect],
    [Close], [AttemptConnection] and a [SendPayload] that prints what it
    reads.  It runs against the same [Net]; what it prints is part of its
    trace. *)

Module Legacy.

(** [apnsConn] without [tls_cfg] and [mu] (which this version never
    locks). *)
Record apnsConn : Type := {
  tlsconn : option tlsConn;
  endpoint : string;
  ReadTimeout : Duration
}.

(** [Client] once the key pair has been loaded. *)
Definition Client (endpoint : string) : apnsConn :=
  {| tlsconn := None; endpoint := endpoint;
     ReadTimeout := 50 * Millisecond |}.

Inductive output : Type :=
| Io (e : event)
| Printed (text : string).            (* fmt.Printf *)

Record World : Type := {
  client : apnsConn;
  calls : Calls;
  trace : list output
}.

Definition new_world (endpoint : string) : World :=
  {| client := Client endpoint; calls := no_calls; trace := [] |}.

Definition L (A : Type) : Type := World -> result A * World.

Definition ret {A : Type} (a : A) : L A := fun w => (Val a, w).

Definition bind {A B : Type} (m : L A) (k : A -> L B) : L B :=
  fun w =>
    match m w with
    | (Val a, w') => k a w'
    | (Panicked what, w') => (Panicked what, w')
    end.

Definition emit (o : output) : L unit :=
  fun w => (Val tt, {| client := client w; calls := calls w;
                       trace := trace w ++ [o] |}).

Definition tick (f : Calls -> Calls) : L unit :=
  fun w => (Val tt, {| client := client w; calls := f (calls w);
                       trace := trace w |}).

Definition get_calls : L Calls := fun w => (Val (calls w), w).

Definition get_client : L apnsConn := fun w => (Val (client w), w).

Definition set_tlsconn (h : option tlsConn) : L unit :=
  fun w => (Val tt,
            {| client := {| tlsconn := h; endpoint := endpoint (client w);
                            ReadTimeout := ReadTimeout (client w) |};
               calls := calls w; trace := trace w |}).

Definition panic {A : Type} (what : string) : L A :=
  fun w => (Panicked what,
            {| client := client w; calls := calls w;
               trace := trace w ++ [Io (E_Panic what)] |}).

(** A method call through [client.tlsconn]. *)
Definition with_tlsconn {A : Type} (f : tlsConn -> L A) : L A :=
  bind get_client (fun c =>
    match tlsconn c with
    | Some h => f h
    | None => panic nil_dereference
    end).

(** [fmt.Printf("received: %s, %s\n", msg, s)] and [fmt.Printf("OK %s\n", s)] *)
Definition newline : string := String (ascii_of_nat 10) EmptyString.

Definition Printf_received (msg s : string) : string :=
  ("received: " ++ msg ++ ", " ++ s ++ newline)%string.

Definition Printf_OK (s : string) : string := ("OK " ++ s ++ newline)%string.

(** The [switch status] of this version: the text of the status, the
    empty string for a status it does not list. *)
Definition status_msg (status : Z) : string :=
  if status =? 0 then "No errors encountered"
  else if status =? 1 then "Processing Errors"
  else if status =? 2 then "Missing Device Token"
  else if status =? 3 then "Missing Topic"
  else if status =? 4 then "Missing Payload"
  else if status =? 5 then "Invalid Token Size"
  else if status =? 6 then "Invalid Topic Size"
  else if status =? 7 then "Invalid Payload Size"
  else if status =? 8 then "Invalid Token"
  else if status =? 255 then "None (Unknown)"
  else EmptyString.

Section Client.

Variable net : Net.

(** [client.tlsconn.Close()] inside [Close]. *)
Definition Close : L (option error) :=
  with_tlsconn (fun h =>
    bind get_calls (fun k =>
    bind (emit (Io (E_Close (conn_id h)))) (fun _ =>
    bind (tick tick_Close) (fun _ =>
    bind (set_tlsconn
            (Some {| conn_id := conn_id h;
                     handshake_done := handshake_done h;
                     conn_closed := true |})) (fun _ =>
    ret (close_result net (n_Close k))))))).

Definition Connect : L (option error) :=
  bind get_calls (fun k =>
  bind get_client (fun c =>
  bind (emit (Io (E_Dial (endpoint c)))) (fun _ =>
  bind (tick tick_Dial) (fun _ =>
  match dial_result net (n_Dial k) with
  | Some err => ret (Some err)
  | None =>
      bind (match tlsconn c with
            | Some _ => bind Close (fun _ => ret tt)
            | None => ret tt
            end) (fun _ =>
      bind (set_tlsconn (Some (tls_Client (n_Dial k)))) (fun _ =>
      ret None))
  end)))).

Definition AttemptConnection : L (option error) :=
  with_tlsconn (fun h =>
    bind get_calls (fun k =>
    bind (emit (Io (E_Handshake (conn_id h)))) (fun _ =>
    bind (tick tick_Handshake) (fun _ =>
    match handshake_result net (n_Handshake k) with
    | Some err => ret (Some err)
    | None =>
        bind (set_tlsconn
                (Some {| conn_id := conn_id h; handshake_done := true;
                         conn_closed := conn_closed h |})) (fun _ =>
        ret None)
    end)))).

(** The part of [SendPayload] after a read without error. *)
Definition report_reply (readb : list byte) (n : Z) : L unit :=
  if n >? 0 then
    let status := uint8 (byte.unsigned (nth 1 readb (byte.of_Z 0))) in
    let msg := status_msg status in
    let shown := hex.EncodeToString (firstn (Z.to_nat n) readb) in
    if negb (status =? 0)
    then emit (Printed (Printf_received msg shown))
    else emit (Printed (Printf_OK shown))
  else ret tt.

(** [SendPayload] of this version.  [Connect] makes no handshake, so the
    handle may reach [Write] without one: [tls.Conn.Write] then makes the
    handshake itself (the comment at [AttemptConnection] says so), and
    the answer to the [Write] call is the answer to all of it.  A [Write]
    that returns [nil] has therefore completed the handshake; after one
    that returns an error the flag is left as it was, since the result does
    not tell how far the call got and nothing in this client reads it. *)
Definition SendPayload (token payload : list byte) : L (option error) :=
  let transactionId := uint32 1 in
  bind get_calls (fun k =>
  bind (tick tick_Now) (fun _ =>
  let expirationTime :=
    uint32 (Time_Unix (Time_Add (now_result net (n_Now k)) (1 * 3600 * Second))) in
  match bwrite [] [binary.V_uint8 1;
                   binary.V_uint32 transactionId;
                   binary.V_uint32 expirationTime;
                   binary.V_uint16 (uint16 (len token));
                   binary.V_bytes token;
                   binary.V_uint16 (uint16 (len payload));
                   binary.V_bytes payload] with
  | (_, Some err) => ret (Some err)
  | (pdu, None) =>
      with_tlsconn (fun h =>
        bind (emit (Io (E_Write (conn_id h) pdu))) (fun _ =>
        bind (tick tick_Write) (fun _ =>
        match write_result net (n_Write k) with
        | Some err => ret (Some err)
        | None =>
            bind (set_tlsconn (Some (handshaken h))) (fun _ =>
            bind (tick tick_Now) (fun _ =>
            bind get_client (fun c =>
            bind (emit (Io (E_SetReadDeadline (conn_id h)
                              (Some (Time_Add (now_result net (S (n_Now k)))
                                              (ReadTimeout c)))))) (fun _ =>
            bind (emit (Io (E_Read (conn_id h) 6))) (fun _ =>
            bind (tick tick_Read) (fun _ =>
            let '(data, err) := read_result net (n_Read k) in
            let data := firstn 6 data in
            let readb := data ++ repeat (byte.of_Z 0) (6 - length data) in
            match err with
            | Some _ => ret None
            | None => bind (report_reply readb (len data)) (fun _ => ret None)
            end))))))
        end)))
  end)).

End Client.

End Legacy.

(** * Properties *)

(** ** The codec *)

(** The cases of the package's own test. *)
Example parse_empty :
  parseAppleFeedbackMessage [] = Fails (errors_New "Not enough data in slice").
Proof. reflexivity. Qed.

Example parse_test_too_big :
  parseAppleFeedbackMessage
    (map byte.of_Z [0; 0; 0; 0; 1; 0; 65; 66; 67])
  = Fails (errors_New
      "The Message size for the DeviceToken is bigger than the given buffer").
Proof. vm_compute. reflexivity. Qed.

Example parse_test_ok :
  parseAppleFeedbackMessage
    (map byte.of_Z [0; 0; 0; 0; 0; 3; 10; 11; 12])
  = Returns {| Time_t := 0; DeviceToken := "0a0b0c" |}.
Proof. vm_compute. reflexivity. Qed.

Ltac pow2_consts :=
  change (2 ^ 8) with 256 in *; change (2 ^ 15) with 32768 in *;
  change (2 ^ 16) with 65536 in *; change (2 ^ 24) with 16777216 in *;
  change (2 ^ 31) with 2147483648 in *; change (2 ^ 32) with 4294967296 in *.

Lemma byte_of_Z_congr (a b : Z) :
  a mod 2 ^ 8 = b mod 2 ^ 8 -> byte.of_Z a = byte.of_Z b.
Proof.
  intros H. apply byte.unsigned_inj.
  rewrite !byte.unsigned_of_Z. exact H.
Qed.

Lemma PutUint16_u16 (n : Z) :
  binary.BigEndian_PutUint16 (uint16 n) = Wire.u16 n.
Proof.
  unfold binary.BigEndian_PutUint16, Wire.u16, uint16.
  f_equal; [ | f_equal ]; apply byte_of_Z_congr;
    rewrite ?Z.shiftr_div_pow2 by lia; pow2_consts;
    Z.div_mod_to_equations; lia.
Qed.

Lemma PutUint32_u32 (n : Z) :
  binary.BigEndian_PutUint32 (uint32 n) = Wire.u32 n.
Proof.
  unfold binary.BigEndian_PutUint32, Wire.u32, uint32.
  repeat match goal with
         | |- _ :: _ = _ :: _ => f_equal
         | |- byte.of_Z _ = byte.of_Z _ => apply byte_of_Z_congr
         end;
    rewrite ?Z.shiftr_div_pow2 by lia; pow2_consts;
    Z.div_mod_to_equations; lia.
Qed.

Lemma lor_shiftl_add (a b k : Z) :
  0 <= k -> 0 <= a < 2 ^ k -> Z.lor a (Z.shiftl b k) = a + b * 2 ^ k.
Proof.
  intros Hk Ha.
  rewrite Z.shiftl_mul_pow2 by assumption.
  apply Z.or_to_plus.
  apply Z.bits_inj'. intros i Hi.
  rewrite Z.land_spec, Z.bits_0.
  destruct (Z.ltb_spec i k) as [Hlt | Hge].
  - rewrite Z.mul_pow2_bits_low by assumption. apply andb_false_r.
  - rewrite <- (Z.mod_small a (2 ^ k)) by assumption.
    rewrite Z.mod_pow2_bits_high by lia. reflexivity.
Qed.

Lemma Uint16_u16 (n : Z) :
  0 <= n < 2 ^ 16 ->
  binary.BigEndian_Uint16 (byte.of_Z (n / 2 ^ 8)) (byte.of_Z n) = n.
Proof.
  intros Hn. unfold binary.BigEndian_Uint16.
  rewrite !byte.unsigned_of_Z. unfold byte.wrap.
  rewrite lor_shiftl_add by (try apply Z.mod_pos_bound; lia).
  pow2_consts. Z.div_mod_to_equations. lia.
Qed.

Lemma Uint32_u32 (n : Z) :
  0 <= n < 2 ^ 32 ->
  binary.BigEndian_Uint32 (byte.of_Z (n / 2 ^ 24)) (byte.of_Z (n / 2 ^ 16))
    (byte.of_Z (n / 2 ^ 8)) (byte.of_Z n) = n.
Proof.
  intros Hn. unfold binary.BigEndian_Uint32.
  rewrite !byte.unsigned_of_Z. unfold byte.wrap.
  pose proof (Z.mod_pos_bound n (2 ^ 8) ltac:(lia)).
  pose proof (Z.mod_pos_bound (n / 2 ^ 8) (2 ^ 8) ltac:(lia)).
  pose proof (Z.mod_pos_bound (n / 2 ^ 16) (2 ^ 8) ltac:(lia)).
  rewrite (lor_shiftl_add _ _ 8) by lia.
  rewrite (lor_shiftl_add _ _ 16) by (pow2_consts; lia).
  rewrite (lor_shiftl_add _ _ 24) by (pow2_consts; lia).
  pow2_consts. Z.div_mod_to_equations. lia.
Qed.

(** *** The decoder on a buffer with a full header *)

Lemma len_cons {A : Type} (x : A) (l : list A) : len (x :: l) = 1 + len l.
Proof. unfold len. simpl length. lia. Qed.


Lemma len_nonneg {A : Type} (l : list A) : 0 <= len l.
Proof. unfold len. lia. Qed.

Lemma parse_header (b0 b1 b2 b3 b4 b5 : byte) (rest : list byte) :
  parseAppleFeedbackMessage (b0 :: b1 :: b2 :: b3 :: b4 :: b5 :: rest) =
  let size := int16 (binary.BigEndian_Uint16 b4 b5) in
  if 6 + size >? 6 + len rest
  then Fails (errors_New
         "The Message size for the DeviceToken is bigger than the given buffer")
  else if 0 <=? size
       then Returns {| Time_t := int32 (binary.BigEndian_Uint32 b0 b1 b2 b3);
                       DeviceToken :=
                         hex.EncodeToString (firstn (Z.to_nat size) rest) |}
       else RuntimePanic "slice bounds out of range".
Proof.
  unfold parseAppleFeedbackMessage.
  rewrite !len_cons. pose proof (len_nonneg rest) as Hrest.
  replace (1 + (1 + (1 + (1 + (1 + (1 + len rest)))))) with (6 + len rest) by lia.
  destruct (Z.ltb_spec (6 + len rest) 6) as [Hlt | _]; [ lia | ].
  cbn [binary.NewReader binary.Read_int32 binary.Read_int16 binary.ReadFull
       Nat.leb length firstn skipn].
  cbv zeta.
  destruct (6 + int16 (binary.BigEndian_Uint16 b4 b5) >? 6 + len rest) eqn:Hbig;
    [ reflexivity | ].
  unfold slice. rewrite !len_cons.
  set (size := int16 (binary.BigEndian_Uint16 b4 b5)) in *.
  assert (Hle : 6 + size <= 6 + len rest)
    by (destruct (Z.gtb_spec (6 + size) (6 + len rest)); [ discriminate | lia ]).
  destruct (Z.leb_spec 0 size) as [Hpos | Hneg].
  - replace (6 <=? 6 + size) with true by (symmetry; apply Z.leb_le; lia).
    replace (6 + size <=? 1 + (1 + (1 + (1 + (1 + (1 + len rest))))))
      with true by (symmetry; apply Z.leb_le; lia).
    cbn [Z.leb Z.compare andb]. replace (6 + size - 6) with size by lia.
    reflexivity.
  - replace (6 <=? 6 + size) with false by (symmetry; apply Z.leb_gt; lia).
    reflexivity.
Qed.

(** *** Encoder *)

Lemma PutUint32_any (v : Z) : binary.BigEndian_PutUint32 v = Wire.u32 v.
Proof.
  unfold binary.BigEndian_PutUint32, Wire.u32.
  rewrite !Z.shiftr_div_pow2 by lia. reflexivity.
Qed.

Lemma createCommandOnePacket_ok
  (now : Time) (tid : Z) (expiration : Duration) (token payload : list byte) :
  createCommandOnePacket now tid expiration token payload =
  (Wire.extended_push tid (Time_Unix (Time_Add now expiration)) token payload,
   None).
Proof.
  unfold createCommandOnePacket, Wire.extended_push.
  cbn [bwrite binary.Write app].
  rewrite !PutUint16_u16, PutUint32_u32, PutUint32_any.
  rewrite <- !app_assoc. reflexivity.
Qed.

(** C7. [createCommandOnePacket] never fails and its packet is exactly
    [u8 1 | u32 transactionId | u32 expirationEpochSeconds | u16 len(token)
     | token | u16 len(payload) | payload], every integer most significant
    byte first; the expiration field is the whole seconds of now plus the
    expiration, and a 16-bit length field holds [uint16(len(_))]. *)
Theorem createCommandOnePacket_wire_format
  (now : Time) (transactionId : Z) (expiration : Duration)
  (token payload : list byte) :
  createCommandOnePacket now transactionId expiration token payload =
  (Wire.extended_push transactionId (Time_Unix (Time_Add now expiration))
     token payload, None).
Proof. apply createCommandOnePacket_ok. Qed.

(** *** Decoder *)

Lemma int16_small (n : Z) : 0 <= n < 2 ^ 15 -> int16 n = n.
Proof. intros H. unfold int16. pow2_consts. Z.div_mod_to_equations. lia. Qed.

Lemma int16_large (n : Z) : 2 ^ 15 <= n < 2 ^ 16 -> int16 n = n - 2 ^ 16.
Proof. intros H. unfold int16. pow2_consts. Z.div_mod_to_equations. lia. Qed.

Lemma int32_unsigned (n : Z) :
  0 <= n < 2 ^ 32 -> int32 n = if n <? 2 ^ 31 then n else n - 2 ^ 32.
Proof.
  intros H. unfold int32. destruct (Z.ltb_spec n (2 ^ 31));
    pow2_consts; Z.div_mod_to_equations; lia.
Qed.

Lemma Uint16_range (b0 b1 : byte) : 0 <= binary.BigEndian_Uint16 b0 b1 < 2 ^ 16.
Proof.
  unfold binary.BigEndian_Uint16.
  pose proof (byte.unsigned_range b0). pose proof (byte.unsigned_range b1).
  rewrite lor_shiftl_add by lia. pow2_consts. lia.
Qed.

(** Any buffer with a full header whose declared length is 0x8000 or more
    makes the decoder slice out of range. *)
Lemma parse_panics_on_large_declared_length (readb : list byte) :
  6 <= len readb ->
  2 ^ 15 <= declared_token_length readb ->
  parseAppleFeedbackMessage readb = RuntimePanic "slice bounds out of range".
Proof.
  intros Hlen Hdecl.
  destruct readb as [ | b0 [ | b1 [ | b2 [ | b3 [ | b4 [ | b5 rest ] ] ] ] ] ];
    try (unfold len in Hlen; simpl length in Hlen; lia).
  unfold declared_token_length in Hdecl. cbn [nth] in Hdecl.
  rewrite parse_header. cbv zeta.
  pose proof (Uint16_range b4 b5) as Hr. pose proof (len_nonneg rest).
  rewrite int16_large by lia.
  destruct (Z.gtb_spec (6 + (binary.BigEndian_Uint16 b4 b5 - 2 ^ 16)) (6 + len rest));
    [ pow2_consts; lia | ].
  destruct (Z.leb_spec 0 (binary.BigEndian_Uint16 b4 b5 - 2 ^ 16));
    [ pow2_consts; lia | reflexivity ].
Qed.

(** Below 0x8000 the guard does its work: a declared length that exceeds
    the bytes after the header is refused. *)
Lemma parse_rejects_oversized_below_0x8000 (readb : list byte) :
  6 <= len readb ->
  declared_token_length readb < 2 ^ 15 ->
  6 + declared_token_length readb > len readb ->
  parseAppleFeedbackMessage readb =
  Fails (errors_New
    "The Message size for the DeviceToken is bigger than the given buffer").
Proof.
  intros Hlen Hsmall Hbig.
  destruct readb as [ | b0 [ | b1 [ | b2 [ | b3 [ | b4 [ | b5 rest ] ] ] ] ] ];
    try (unfold len in Hlen; simpl length in Hlen; lia).
  unfold declared_token_length in *. cbn [nth] in *.
  rewrite !len_cons in Hbig.
  rewrite parse_header. cbv zeta.
  pose proof (Uint16_range b4 b5) as Hr.
  rewrite int16_small by lia.
  destruct (Z.gtb_spec (6 + binary.BigEndian_Uint16 b4 b5) (6 + len rest));
    [ reflexivity | lia ].
Qed.

(** C3, evaluated on a six-byte buffer that declares a token of 65535
    bytes: the declared length exceeds what follows the header, and the
    decoder does not return an error but slices [readb[6:5]]. *)
Theorem parse_oversized_length_panics :
  let readb := map byte.of_Z [0; 0; 0; 0; 255; 255] in
  6 <= len readb
  /\ 6 + declared_token_length readb > len readb
  /\ slice readb 6 (6 + int16 (declared_token_length readb)) = None
  /\ parseAppleFeedbackMessage readb = RuntimePanic "slice bounds out of range".
Proof. vm_compute. repeat split; congruence. Qed.

(** C8, as amended. The encoding [u32 timestamp | u16 len(token) | token]
    of an unsigned 32-bit timestamp and a token of at most 32767 bytes
    decodes to the token in lowercase hex and to the timestamp read as a
    signed 32-bit number: itself below 2^31, and 2^32 less from there on. *)
Theorem feedback_record_round_trip (timestamp : Z) (token : list byte) :
  0 <= timestamp < 2 ^ 32 ->
  len token <= 32767 ->
  parseAppleFeedbackMessage (Wire.feedback_record timestamp token) =
  Returns {| Time_t := if timestamp <? 2 ^ 31 then timestamp
                       else timestamp - 2 ^ 32;
             DeviceToken := hex.EncodeToString token |}.
Proof.
  intros Hts Htok.
  unfold Wire.feedback_record, Wire.u32, Wire.u16. cbn [app].
  rewrite parse_header. cbv zeta.
  pose proof (len_nonneg token) as Hnn.
  rewrite Uint16_u16 by (pow2_consts; lia).
  rewrite int16_small by (pow2_consts; lia).
  rewrite Uint32_u32 by assumption.
  rewrite int32_unsigned by assumption.
  destruct (Z.gtb_spec (6 + len token) (6 + len token)); [ lia | ].
  destruct (Z.leb_spec 0 (len token)); [ | lia ].
  unfold len. rewrite Nat2Z.id, firstn_all. reflexivity.
Qed.

Lemma feedback_record_round_trip_witness :
  parseAppleFeedbackMessage
    (Wire.feedback_record 1351555200 (map byte.of_Z [10; 11; 12])) =
  Returns {| Time_t := 1351555200; DeviceToken := "0a0b0c" |}.
Proof.
  apply (feedback_record_round_trip 1351555200 (map byte.of_Z [10; 11; 12])).
  - lia.
  - vm_compute. discriminate.
Defined.

(** C8 as stated fails: the unsigned timestamp 2^31 with an empty token is
    decoded to [Time_t = -2^31]. *)
Lemma feedback_record_round_trip_unsigned_fails :
  0 <= 2 ^ 31 < 2 ^ 32
  /\ len (@nil byte) < 2 ^ 16
  /\ parseAppleFeedbackMessage (Wire.feedback_record (2 ^ 31) []) =
     Returns {| Time_t := - 2 ^ 31; DeviceToken := hex.EncodeToString [] |}
  /\ parseAppleFeedbackMessage (Wire.feedback_record (2 ^ 31) []) <>
     Returns {| Time_t := 2 ^ 31; DeviceToken := hex.EncodeToString [] |}.
Proof.
  split; [ lia | ]. split; [ reflexivity | ].
  split; [ vm_compute; reflexivity | vm_compute; discriminate ].
Qed.

(** A token of 32768 to 65535 bytes, whose length does fit the 16-bit
    prefix, is not decoded at all. *)
Lemma feedback_record_long_token_panics (timestamp : Z) (token : list byte) :
  2 ^ 15 <= len token < 2 ^ 16 ->
  parseAppleFeedbackMessage (Wire.feedback_record timestamp token) =
  RuntimePanic "slice bounds out of range".
Proof.
  intros Hlen. apply parse_panics_on_large_declared_length.
  - unfold Wire.feedback_record, Wire.u32, Wire.u16. cbn [app].
    rewrite !len_cons. lia.
  - unfold Wire.feedback_record, Wire.u32, Wire.u16, declared_token_length.
    cbn [app nth]. rewrite Uint16_u16 by lia. lia.
Qed.

(** ** The connection *)

(** Symbolic execution of the client's operations on a world given by its
    fields. *)
Ltac go_unfold :=
  cbv beta iota zeta delta
    [SendPayload SendPayload_body with_deferred connect shutdown
     tls_Close tls_Handshake net_Dial tls_Write tls_Read read_into
     tls_SetReadDeadline tls_Client time_Now time_Sleep
     bind ret get_client update_client emit with_tlsconn panic
     with_client with_calls record
     set_connected set_tlsconn set_transactionId
     tick_Dial tick_Handshake tick_Close tick_Write tick_Read tick_Now
     client calls trace tlsconn connected transactionId endpoint
     ReadTimeout MAX_PAYLOAD_SIZE conn_id handshake_done conn_closed
     n_Dial n_Handshake n_Close n_Write n_Read n_Now
     live conn_invariant perform fst snd].

Ltac go_cases :=
  repeat match goal with
         | |- context [match ?x with _ => _ end] =>
             lazymatch x with
             | context [match _ with _ => _ end] => fail
             | _ => destruct x eqn:?
             end; go_unfold
         end.

Lemma shutdown_invariant (net : Net) (w : World) :
  conn_invariant (client w) ->
  conn_invariant (client (snd (shutdown net w)))
  /\ connected (client (snd (shutdown net w))) = false.
Proof.
  destruct w as [[h e r t m c] k tr]. go_unfold.
  destruct h as [[id hs cl] | ]; go_unfold; intros H.
  - rewrite andb_false_r. auto.
  - auto.
Qed.

Lemma connect_invariant (net : Net) (w : World) :
  conn_invariant (client w) ->
  conn_invariant (client (snd (connect net w))).
Proof.
  destruct w as [[h e r t m c] k tr]. go_unfold.
  intros H. go_cases; subst; go_unfold; try assumption; try reflexivity;
    rewrite ?andb_false_r; try reflexivity.
Qed.

Lemma SendPayload_invariant (net : Net) (token payload : list byte)
  (expiration : Duration) (w : World) :
  conn_invariant (client w) ->
  conn_invariant (client (snd (SendPayload net token payload expiration w))).
Proof.
  destruct w as [[h e r t m c] k tr]. go_unfold.
  intros H.
  destruct (len payload >? m); go_unfold; [ assumption | ].
  destruct c, h as [[id hs cl] | ]; go_unfold; try discriminate H;
    repeat (rewrite ?createCommandOnePacket_ok; go_unfold; go_cases);
    subst; go_unfold; rewrite ?andb_false_r; try assumption; try reflexivity.
Qed.

(** *** A send that gets as far as reading the reply *)

Lemma snoc4 {A : Type} (pre : list A) (a b c d : A) :
  (((pre ++ [a]) ++ [b]) ++ [c]) ++ [d] = pre ++ [a; b; c; d].
Proof. rewrite <- !app_assoc. reflexivity. Qed.

Lemma snoc5 {A : Type} (pre : list A) (a b c d e : A) :
  ((((pre ++ [a]) ++ [b]) ++ [c]) ++ [d]) ++ [e] = pre ++ [a; b; c; d; e].
Proof. rewrite <- !app_assoc. reflexivity. Qed.

Lemma SendPayload_reads_reply (net : Net) (token payload : list byte)
  (expiration : Duration) (w : World) :
  conn_invariant (client w) ->
  reaches_read net w payload ->
  exists (w' : World) (id : nat) (pre : list event) (pkt : list byte)
         (deadline : option Time),
    SendPayload net token payload expiration w
      = (Val (reply_of (read_result net (n_Read (calls w)))), w')
    /\ transactionId (client w') = uint32 (transactionId (client w) + 1)
    /\ match reply_of (read_result net (n_Read (calls w))) with
       | None =>
           connected (client w') = true
           /\ tlsconn (client w') =
              Some {| conn_id := id; handshake_done := true; conn_closed := false |}
           /\ trace w' =
              pre ++ [E_Write id pkt; E_SetReadDeadline id deadline;
                      E_Read id 6; E_Unlock]
       | Some _ =>
           connected (client w') = false
           /\ tlsconn (client w') =
              Some {| conn_id := id; handshake_done := true; conn_closed := true |}
           /\ trace w' =
              pre ++ [E_Write id pkt; E_SetReadDeadline id deadline;
                      E_Read id 6; E_Close id; E_Unlock]
       end.
Proof.
  destruct w as [[h e r t m c] [nd nh nc nw nr nn] tr].
  unfold reaches_read, reply_of. go_unfold.
  intros Hinv (Hlen & Hconn & Hwrite).
  destruct (Z.gtb_spec (len payload) m) as [ | _ ]; [ lia | ].
  destruct (read_result net nr) as [data err] eqn:Hread.
  destruct c.
  - destruct h as [[id hs cl] | ]; [ | discriminate Hinv ].
    destruct hs, cl; try discriminate Hinv.
    go_unfold. rewrite createCommandOnePacket_ok. go_unfold.
    rewrite Hwrite. go_unfold. rewrite Hread. go_unfold.
    destruct err as [e0 | ];
      [ destruct (is_net_timeout e0) | destruct (check_reply _ _) ];
      go_unfold;
      do 5 eexists; repeat split; first [ apply snoc4 | apply snoc5 ].
  - destruct Hconn as [Hc | [Hdial Hhs]]; [ discriminate Hc | ].
    destruct h as [[id hs cl] | ]; go_unfold;
      rewrite Hdial; go_unfold; rewrite Hhs; go_unfold;
      rewrite createCommandOnePacket_ok; go_unfold;
      rewrite Hwrite; go_unfold; rewrite Hread; go_unfold;
      (destruct err as [e0 | ];
       [ destruct (is_net_timeout e0) | destruct (check_reply _ _) ]);
      go_unfold;
      do 5 eexists; repeat split; first [ apply snoc4 | apply snoc5 ].
Qed.

Lemma reachable_invariant (net : Net) (w : World) :
  reachable net w -> conn_invariant (client w).
Proof.
  induction 1 as [endpoint | w op Hreach IH].
  - reflexivity.
  - destruct op; cbn [perform].
    + apply connect_invariant, IH.
    + apply shutdown_invariant, IH.
    + apply SendPayload_invariant, IH.
Qed.

Lemma connect_failure_disconnected (net : Net) (w : World) (e : error) :
  conn_invariant (client w) ->
  fst (connect net w) = Val (Some e) ->
  connected (client (snd (connect net w))) = false.
Proof.
  destruct w as [[h ep r t m c] k tr]. go_unfold.
  intros H. go_cases; subst; go_unfold; intros; try reflexivity; try congruence.
Qed.

Lemma check_reply_status (data : list byte) :
  2 <= len data ->
  check_reply (firstn 6 data ++ repeat (byte.of_Z 0) (6 - length (firstn 6 data)))
    (len (firstn 6 data)) =
  let status := byte.unsigned (nth 1 data (byte.of_Z 0)) in
  if status =? 0 then None
  else if existsb (Z.eqb status) [1; 2; 3; 4; 5; 6; 7; 8; 255]
       then Some (errors_New (map_index errText status))
       else Some (errors_New (Sprintf_unknown_code
                    (hex.EncodeToString (firstn 6 data)))).
Proof.
  intros Hlen.
  destruct data as [ | a [ | b rest ] ];
    try (unfold len in Hlen; simpl length in Hlen; lia).
  unfold check_reply.
  set (frame := firstn 6 (a :: b :: rest)).
  assert (Hframe : frame = a :: b :: firstn 4 rest) by reflexivity.
  assert (Hn : (len frame >? 1) = true).
  { rewrite Hframe, !len_cons. pose proof (len_nonneg (firstn 4 rest)).
    apply Z.gtb_lt. lia. }
  rewrite Hn.
  replace (nth 1 (frame ++ repeat (byte.of_Z 0) (6 - length frame)) (byte.of_Z 0))
    with b by (rewrite Hframe; reflexivity).
  replace (firstn (Z.to_nat (len frame))
             (frame ++ repeat (byte.of_Z 0) (6 - length frame)))
    with frame.
  2:{ unfold len. rewrite Nat2Z.id.
      rewrite firstn_app, Nat.sub_diag, firstn_all. cbn [firstn].
      rewrite app_nil_r. reflexivity. }
  cbn [nth]. unfold uint8.
  rewrite Z.mod_small by apply byte.unsigned_range.
  reflexivity.
Qed.

(** ** SendPayload *)

(** C5. A payload longer than [MAX_PAYLOAD_SIZE] is refused with the
    payload-size error and nothing else happens: the client (connection
    and transaction counter included), the calls made to the outside and
    the trace are what they were. *)
Theorem SendPayload_too_large (net : Net) (token payload : list byte)
  (expiration : Duration) (w : World) :
  len payload > MAX_PAYLOAD_SIZE (client w) ->
  SendPayload net token payload expiration w =
  (Val (Some (errors_New
     (Sprintf_extra_int "The payload exceeds maximum allowed"
        (MAX_PAYLOAD_SIZE (client w))))), w).
Proof.
  intros Hbig. unfold SendPayload, bind, get_client.
  destruct (Z.gtb_spec (len payload) (MAX_PAYLOAD_SIZE (client w))); [ | lia ].
  reflexivity.
Qed.

Lemma SendPayload_too_large_witness :
  SendPayload (answering ([], None)) [] (repeat (byte.of_Z 0) 257)
    (3600 * Second) (new_world gateway) =
  (Val (Some (errors_New
     "The payload exceeds maximum allowed%!(EXTRA int=256)")),
   new_world gateway).
Proof.
  apply (SendPayload_too_large (answering ([], None)) []
           (repeat (byte.of_Z 0) 257) (3600 * Second) (new_world gateway)).
  vm_compute. reflexivity.
Defined.

(** C4. When the write succeeds and the read fails with a timeout,
    [SendPayload] returns [nil]; the client stays connected on an open
    handle, and after the write only the deadline, the read and the unlock
    happen: nothing is closed. *)
Theorem SendPayload_timeout_is_success (net : Net) (token payload : list byte)
  (expiration : Duration) (w : World) (data : list byte) (e : error) :
  reachable net w ->
  reaches_read net w payload ->
  read_result net (n_Read (calls w)) = (data, Some e) ->
  is_net_timeout e = true ->
  exists (w' : World) (id : nat) (pre : list event) (pkt : list byte)
         (deadline : option Time),
    SendPayload net token payload expiration w = (Val None, w')
    /\ connected (client w') = true
    /\ tlsconn (client w') =
       Some {| conn_id := id; handshake_done := true; conn_closed := false |}
    /\ trace w' = pre ++ [E_Write id pkt; E_SetReadDeadline id deadline;
                          E_Read id 6; E_Unlock].
Proof.
  intros Hreach Hsend Hread Htimeout.
  destruct (SendPayload_reads_reply net token payload expiration w
              (reachable_invariant net w Hreach) Hsend)
    as (w' & id & pre & pkt & deadline & Hrun & _ & Hafter).
  rewrite Hread in Hrun, Hafter. unfold reply_of in Hrun, Hafter.
  rewrite Htimeout in Hrun, Hafter.
  exists w', id, pre, pkt, deadline. split; [ exact Hrun | exact Hafter ].
Qed.

Lemma SendPayload_timeout_is_success_witness :
  exists (w' : World) (id : nat) (pre : list event) (pkt : list byte)
         (deadline : option Time),
    SendPayload (answering ([], Some (net_Error true)))
      (repeat (byte.of_Z 171) 32) (map byte.of_Z [123; 125]) (3600 * Second)
      (new_world gateway) = (Val None, w')
    /\ connected (client w') = true
    /\ tlsconn (client w') =
       Some {| conn_id := id; handshake_done := true; conn_closed := false |}
    /\ trace w' = pre ++ [E_Write id pkt; E_SetReadDeadline id deadline;
                          E_Read id 6; E_Unlock].
Proof.
  apply (SendPayload_timeout_is_success (answering ([], Some (net_Error true)))
           (repeat (byte.of_Z 171) 32) (map byte.of_Z [123; 125])
           (3600 * Second) (new_world gateway) [] (net_Error true)).
  - apply reach_new.
  - split; [ vm_compute; discriminate | ].
    split; [ right; split; reflexivity | reflexivity ].
  - reflexivity.
  - reflexivity.
Defined.

(** C2, as amended. When the reply carries one of the statuses 1 to 8 or
    255, [SendPayload] returns the table's text for it as an error, and the
    deferred error handler then shuts the connection down: the handle is
    closed right after the read and the client is no longer connected. *)
Theorem SendPayload_rejection_shuts_down (net : Net)
  (token payload : list byte) (expiration : Duration) (w : World)
  (data : list byte) (status : Z) :
  reachable net w ->
  reaches_read net w payload ->
  read_result net (n_Read (calls w)) = (data, None) ->
  2 <= len data ->
  status = byte.unsigned (nth 1 data (byte.of_Z 0)) ->
  In status [1; 2; 3; 4; 5; 6; 7; 8; 255] ->
  exists (w' : World) (id : nat) (pre : list event) (pkt : list byte)
         (deadline : option Time),
    SendPayload net token payload expiration w
      = (Val (Some (errors_New (map_index errText status))), w')
    /\ connected (client w') = false
    /\ tlsconn (client w') =
       Some {| conn_id := id; handshake_done := true; conn_closed := true |}
    /\ trace w' = pre ++ [E_Write id pkt; E_SetReadDeadline id deadline;
                          E_Read id 6; E_Close id; E_Unlock].
Proof.
  intros Hreach Hsend Hread Hlen Hstatus Henum.
  destruct (SendPayload_reads_reply net token payload expiration w
              (reachable_invariant net w Hreach) Hsend)
    as (w' & id & pre & pkt & deadline & Hrun & _ & Hafter).
  rewrite Hread in Hrun, Hafter. unfold reply_of in Hrun, Hafter.
  rewrite check_reply_status in Hrun, Hafter by assumption.
  cbv zeta in Hrun, Hafter. rewrite <- Hstatus in Hrun, Hafter.
  assert (Hcase : (status =? 0) = false
                  /\ existsb (Z.eqb status) [1; 2; 3; 4; 5; 6; 7; 8; 255] = true).
  { cbn [In] in Henum.
    repeat (destruct Henum as [<- | Henum]; [ split; reflexivity | ]).
    contradiction. }
  destruct Hcase as [Hnz Hin]. rewrite Hnz, Hin in Hrun, Hafter.
  exists w', id, pre, pkt, deadline. split; [ exact Hrun | exact Hafter ].
Qed.

Lemma SendPayload_rejection_shuts_down_witness :
  exists (w' : World) (id : nat) (pre : list event) (pkt : list byte)
         (deadline : option Time),
    SendPayload (answering (map byte.of_Z [8; 8; 0; 0; 0; 1], None))
      (repeat (byte.of_Z 171) 32) (map byte.of_Z [123; 125]) (3600 * Second)
      (new_world gateway)
      = (Val (Some (errors_New (map_index errText 8))), w')
    /\ connected (client w') = false
    /\ tlsconn (client w') =
       Some {| conn_id := id; handshake_done := true; conn_closed := true |}
    /\ trace w' = pre ++ [E_Write id pkt; E_SetReadDeadline id deadline;
                          E_Read id 6; E_Close id; E_Unlock].
Proof.
  apply (SendPayload_rejection_shuts_down
           (answering (map byte.of_Z [8; 8; 0; 0; 0; 1], None))
           (repeat (byte.of_Z 171) 32) (map byte.of_Z [123; 125])
           (3600 * Second) (new_world gateway)
           (map byte.of_Z [8; 8; 0; 0; 0; 1]) 8).
  - apply reach_new.
  - split; [ vm_compute; discriminate | ].
    split; [ right; split; reflexivity | reflexivity ].
  - reflexivity.
  - vm_compute. discriminate.
  - vm_compute. reflexivity.
  - simpl. tauto.
Defined.

(** C2 as stated fails: a fresh client whose packet is answered by the
    frame [08 08 00 00 00 01] returns "Invalid Token", and afterwards it is
    not connected and its handle has been closed. *)
Lemma SendPayload_rejection_stays_open_fails :
  fst (SendPayload (answering (map byte.of_Z [8; 8; 0; 0; 0; 1], None))
         (repeat (byte.of_Z 171) 32) (map byte.of_Z [123; 125])
         (3600 * Second) (new_world gateway))
    = Val (Some (errors_New "Invalid Token"))
  /\ connected (client (snd
       (SendPayload (answering (map byte.of_Z [8; 8; 0; 0; 0; 1], None))
          (repeat (byte.of_Z 171) 32) (map byte.of_Z [123; 125])
          (3600 * Second) (new_world gateway)))) <> true
  /\ In (E_Close 0) (trace (snd
       (SendPayload (answering (map byte.of_Z [8; 8; 0; 0; 0; 1], None))
          (repeat (byte.of_Z 171) 32) (map byte.of_Z [123; 125])
          (3600 * Second) (new_world gateway)))).
Proof.
  split; [ vm_compute; reflexivity | ].
  split; [ vm_compute; discriminate | ].
  vm_compute. tauto.
Qed.

(** C6. The error made from a reply of two or more bytes with a nonzero
    status: statuses 1 to 7 give their table text, 8 gives "Invalid Token",
    255 gives "None (Unknown)", and any other status gives
    "Unknown error code ", the lowercase hex of the bytes read, and a
    space. *)
Theorem SendPayload_status_text (net : Net) (token payload : list byte)
  (expiration : Duration) (w : World) (data : list byte) (status : Z) :
  reachable net w ->
  reaches_read net w payload ->
  read_result net (n_Read (calls w)) = (data, None) ->
  2 <= len data ->
  status = byte.unsigned (nth 1 data (byte.of_Z 0)) ->
  status <> 0 ->
  exists (w' : World) (msg : string),
    SendPayload net token payload expiration w
      = (Val (Some (errors_New msg)), w')
    /\ (status = 1 -> msg = "Processing Errors"%string)
    /\ (status = 2 -> msg = "Missing Device Token"%string)
    /\ (status = 3 -> msg = "Missing Topic"%string)
    /\ (status = 4 -> msg = "Missing Payload"%string)
    /\ (status = 5 -> msg = "Invalid Token Size"%string)
    /\ (status = 6 -> msg = "Invalid Topic Size"%string)
    /\ (status = 7 -> msg = "Invalid Payload Size"%string)
    /\ (status = 8 -> msg = "Invalid Token"%string)
    /\ (status = 255 -> msg = "None (Unknown)"%string)
    /\ (8 < status < 255 ->
        msg = ("Unknown error code "
                 ++ hex.EncodeToString (firstn 6 data) ++ " ")%string).
Proof.
  intros Hreach Hsend Hread Hlen Hstatus Hnz.
  destruct (SendPayload_reads_reply net token payload expiration w
              (reachable_invariant net w Hreach) Hsend)
    as (w' & id & pre & pkt & deadline & Hrun & _ & _).
  rewrite Hread in Hrun. unfold reply_of in Hrun.
  rewrite check_reply_status in Hrun by assumption.
  cbv zeta in Hrun. rewrite <- Hstatus in Hrun.
  rewrite (proj2 (Z.eqb_neq status 0) Hnz) in Hrun.
  exists w'.
  exists (if existsb (Z.eqb status) [1; 2; 3; 4; 5; 6; 7; 8; 255]
          then map_index errText status
          else Sprintf_unknown_code (hex.EncodeToString (firstn 6 data))).
  split.
  - rewrite Hrun.
    destruct (existsb (Z.eqb status) [1; 2; 3; 4; 5; 6; 7; 8; 255]); reflexivity.
  - repeat split; try (intros ->; reflexivity).
    intros Hother. cbn [existsb].
    rewrite !(proj2 (Z.eqb_neq status _)) by lia.
    reflexivity.
Qed.

Lemma SendPayload_status_text_witness :
  exists (w' : World),
    SendPayload (answering (map byte.of_Z [8; 9; 0; 0; 0; 1], None))
      (repeat (byte.of_Z 171) 32) (map byte.of_Z [123; 125]) (3600 * Second)
      (new_world gateway)
      = (Val (Some (errors_New "Unknown error code 080900000001 ")), w').
Proof.
  destruct (SendPayload_status_text
              (answering (map byte.of_Z [8; 9; 0; 0; 0; 1], None))
              (repeat (byte.of_Z 171) 32) (map byte.of_Z [123; 125])
              (3600 * Second) (new_world gateway)
              (map byte.of_Z [8; 9; 0; 0; 0; 1]) 9)
    as (w' & msg & Hrun & Htext).
  - apply reach_new.
  - split; [ vm_compute; discriminate | ].
    split; [ right; split; reflexivity | reflexivity ].
  - reflexivity.
  - vm_compute. discriminate.
  - vm_compute. reflexivity.
  - discriminate.
  - exists w'. rewrite Hrun.
    destruct Htext as (_ & _ & _ & _ & _ & _ & _ & _ & _ & Hother).
    rewrite Hother by lia. vm_compute. reflexivity.
Defined.

(** ** The connected flag *)

(** C9, as amended. In every world a fresh client can reach through
    [connect], [shutdown] and [SendPayload], the connected flag is set
    exactly when the handle is present, has completed its handshake and has
    not been closed; [shutdown] leaves the client disconnected, and so does
    a [connect] that returns an error. *)
Theorem connected_iff_live_handle (net : Net) (w : World) :
  reachable net w ->
  (connected (client w) = true <->
   exists h : tlsConn,
     tlsconn (client w) = Some h
     /\ handshake_done h = true /\ conn_closed h = false)
  /\ connected (client (snd (shutdown net w))) = false
  /\ (forall e : error,
        fst (connect net w) = Val (Some e) ->
        connected (client (snd (connect net w))) = false).
Proof.
  intros Hreach. pose proof (reachable_invariant net w Hreach) as Hinv.
  split; [ | split ].
  - unfold conn_invariant, live in Hinv. rewrite Hinv.
    destruct (tlsconn (client w)) as [h | ].
    + split.
      * intros Hlive. exists h. apply andb_prop in Hlive.
        destruct Hlive as [Hhs Hcl]. apply negb_true_iff in Hcl. auto.
      * intros (h' & Heq & Hhs & Hcl). injection Heq as <-.
        rewrite Hhs, Hcl. reflexivity.
    + split; [ discriminate | ]. intros (h' & Heq & _). discriminate.
  - apply shutdown_invariant, Hinv.
  - intros e. apply connect_failure_disconnected, Hinv.
Qed.

Lemma connected_iff_live_handle_witness :
  (connected (client shut_down_client) = true <->
   exists h : tlsConn,
     tlsconn (client shut_down_client) = Some h
     /\ handshake_done h = true /\ conn_closed h = false)
  /\ connected (client (snd (shutdown (answering ([], None)) shut_down_client)))
     = false
  /\ (forall e : error,
        fst (connect (answering ([], None)) shut_down_client) = Val (Some e) ->
        connected (client (snd (connect (answering ([], None)) shut_down_client)))
        = false).
Proof.
  apply (connected_iff_live_handle (answering ([], None)) shut_down_client).
  unfold shut_down_client. apply reach_step, reach_step, reach_new.
Defined.

(** C9 as stated fails: after [connect] and [shutdown] the handle is still
    present and its handshake had succeeded, yet the flag is false. *)
Lemma connected_iff_handshaken_fails :
  reachable (answering ([], None)) shut_down_client
  /\ ~ (connected (client shut_down_client) = true <->
        exists h : tlsConn,
          tlsconn (client shut_down_client) = Some h
          /\ handshake_done h = true).
Proof.
  split.
  - unfold shut_down_client. apply reach_step, reach_step, reach_new.
  - intros [_ Hback].
    assert (Hflag : connected (client shut_down_client) = true).
    { apply Hback.
      exists {| conn_id := 0; handshake_done := true; conn_closed := true |}.
      split; reflexivity. }
    vm_compute in Hflag. discriminate Hflag.
Qed.

(** ** The feedback listener *)

Ltac listener_unfold :=
  cbv beta iota zeta delta
    [StartListening listen_iteration bufio_Read bufio_NewReader
     reconnect_loop option_map is_EOF broken_link
     dial_result handshake_result close_result write_result read_result
     now_result firstn length app repeat
     connect shutdown
     tls_Close tls_Handshake net_Dial tls_Write tls_Read read_into
     tls_SetReadDeadline tls_Client time_Now time_Sleep
     bind ret get_client update_client emit with_tlsconn panic
     with_client with_calls record
     set_connected set_tlsconn set_transactionId
     tick_Dial tick_Handshake tick_Close tick_Write tick_Read tick_Now
     client calls trace tlsconn connected transactionId endpoint
     ReadTimeout MAX_PAYLOAD_SIZE conn_id handshake_done conn_closed
     n_Dial n_Handshake n_Close n_Write n_Read n_Now fst snd].

Lemma broken_link_turn (buff_reader : nat) (w : World) :
  tlsconn (client w) <> None ->
  n_Dial (calls w) <> O ->
  exists w' : World,
    listen_iteration broken_link (Some buff_reader) w
      = (Val (Some buff_reader), w')
    /\ tlsconn (client w') <> None
    /\ n_Dial (calls w') = (3 + n_Dial (calls w))%nat
    /\ n_Read (calls w') = S (n_Read (calls w))
    /\ existsb fatal (trace w') = existsb fatal (trace w).
Proof.
  destruct w as [[h e r t m c] [nd nh nc nw nr nn] tr].
  destruct h as [[id hs cl] | ]; [ | intros H; contradiction H; reflexivity ].
  destruct nd as [ | nd ]; [ intros _ H; contradiction H; reflexivity | ].
  intros _ _.
  unfold listen_iteration. cbn [reconnect_loop bufio_Read].
  change (3 - Z.of_nat 3 =? 3) with false.
  change (3 - Z.of_nat 2 =? 3) with false.
  change (3 - Z.of_nat 1 =? 3) with false.
  cbv iota.
  listener_unfold.
  eexists. split; [ reflexivity | ]. listener_unfold.
  split; [ discriminate | ]. split; [ reflexivity | ]. split; [ reflexivity | ].
  rewrite !existsb_app. cbn [existsb fatal]. rewrite !orb_false_r. reflexivity.
Qed.

Lemma broken_link_listen (turns : nat) :
  forall (buff_reader : nat) (w : World),
    tlsconn (client w) <> None ->
    n_Dial (calls w) <> O ->
    exists w' : World,
      listen broken_link turns (Some buff_reader) w
        = (Val (Some buff_reader), w')
      /\ n_Dial (calls w') = (3 * turns + n_Dial (calls w))%nat
      /\ n_Read (calls w') = (turns + n_Read (calls w))%nat
      /\ existsb fatal (trace w') = existsb fatal (trace w).
Proof.
  induction turns as [ | turns IH ]; intros buff_reader w Hconn Hdial.
  - exists w. repeat split; reflexivity.
  - destruct (broken_link_turn buff_reader w Hconn Hdial)
      as (w1 & Hturn & Hconn1 & Hdial1 & Hread1 & Hfatal1).
    destruct (IH buff_reader w1 Hconn1 ltac:(lia))
      as (w' & Hrest & Hdial' & Hread' & Hfatal').
    exists w'. cbn [listen]. unfold bind at 1. rewrite Hturn.
    split; [ exact Hrest | ].
    split; [ lia | ]. split; [ lia | congruence ].
Qed.

(** C1, evaluated on a link that goes down for good after the first
    connection: however many turns of the listener's loop are observed,
    the goroutine is still running, it has neither panicked nor closed its
    channel, and it has made one read and three dials per turn. *)
Theorem StartListening_never_gives_up (turns : nat) :
  exists w : World,
    StartListening broken_link turns (new_world APPLE_FEEDBACK) = (Val tt, w)
    /\ existsb fatal (trace w) = false
    /\ n_Read (calls w) = turns
    /\ n_Dial (calls w) = (1 + 3 * turns)%nat.
Proof.
  set (w0 := snd (bufio_NewReader
                    (snd (tls_SetReadDeadline None
                       (snd (connect broken_link (new_world APPLE_FEEDBACK))))))).
  destruct (broken_link_listen turns 0%nat w0)
    as (w & Hrun & Hdial & Hread & Hfatal); [ discriminate | discriminate | ].
  exists w. split.
  - change (StartListening broken_link turns (new_world APPLE_FEEDBACK))
      with (bind (listen broken_link turns (Some 0%nat)) (fun _ => ret tt) w0).
    unfold bind. rewrite Hrun. reflexivity.
  - split; [ rewrite Hfatal; reflexivity | ].
    split; [ rewrite Hread; cbn; lia | rewrite Hdial; cbn; lia ].
Qed.

(** The first two turns on that link: the third refused dial is followed
    by the next read. *)
Example StartListening_trace_on_broken_link :
  trace (snd (StartListening broken_link 2 (new_world APPLE_FEEDBACK))) =
  [ E_Dial APPLE_FEEDBACK; E_Handshake 0; E_SetReadDeadline 0 None;
    E_Read 0 38;
    E_Close 0; E_Sleep (30 * Second); E_Close 0; E_Dial APPLE_FEEDBACK;
    E_Close 0; E_Sleep (30 * Second); E_Close 0; E_Dial APPLE_FEEDBACK;
    E_Close 0; E_Sleep (30 * Second); E_Close 0; E_Dial APPLE_FEEDBACK;
    E_Read 0 38;
    E_Close 0; E_Sleep (30 * Second); E_Close 0; E_Dial APPLE_FEEDBACK;
    E_Close 0; E_Sleep (30 * Second); E_Close 0; E_Dial APPLE_FEEDBACK;
    E_Close 0; E_Sleep (30 * Second); E_Close 0; E_Dial APPLE_FEEDBACK ].
Proof. vm_compute. reflexivity. Qed.

(** *** Trailing bytes *)





(** * Further properties of the package *)

(** ** The decoder, case by case *)

Lemma parse_short (readb : list byte) :
  len readb < 6 -> parseAppleFeedbackMessage readb = Fails err_not_enough_data.
Proof.
  intros H. unfold parseAppleFeedbackMessage.
  destruct (Z.ltb_spec (len readb) 6); [ reflexivity | lia ].
Qed.

(** The outcome of the decoder on any buffer, by the length of the buffer
    and the length it declares. *)
Lemma parse_cases (readb : list byte) :
  parseAppleFeedbackMessage readb =
  if len readb <? 6 then Fails err_not_enough_data
  else if 2 ^ 15 <=? declared_token_length readb
  then RuntimePanic "slice bounds out of range"
  else if 6 + declared_token_length readb >? len readb
  then Fails err_token_exceeds_buffer
  else Returns {| Time_t := declared_timestamp readb;
                  DeviceToken :=
                    hex.EncodeToString
                      (firstn (Z.to_nat (declared_token_length readb))
                         (skipn 6 readb)) |}.
Proof.
  destruct (Z.ltb_spec (len readb) 6) as [Hshort | Hlen].
  - apply parse_short, Hshort.
  - destruct (Z.leb_spec (2 ^ 15) (declared_token_length readb)) as [Hbig | Hsmall].
    + apply parse_panics_on_large_declared_length; assumption.
    + destruct (Z.gtb_spec (6 + declared_token_length readb) (len readb))
        as [Hover | Hfit].
      * apply parse_rejects_oversized_below_0x8000; lia.
      * destruct readb
          as [ | b0 [ | b1 [ | b2 [ | b3 [ | b4 [ | b5 rest ] ] ] ] ] ];
          try (unfold len in Hlen; simpl length in Hlen; lia).
        unfold declared_token_length, declared_timestamp in *.
        cbn [nth skipn] in *. rewrite !len_cons in Hfit.
        rewrite parse_header. cbv zeta.
        pose proof (Uint16_range b4 b5) as Hr.
        rewrite int16_small by lia.
        destruct (Z.gtb_spec (6 + binary.BigEndian_Uint16 b4 b5) (6 + len rest));
          [ lia | ].
        destruct (Z.leb_spec 0 (binary.BigEndian_Uint16 b4 b5)); [ | lia ].
        reflexivity.
Qed.

Lemma parse_returns_spec (readb : list byte) (msg : ApnsFeedbackMessage) :
  parseAppleFeedbackMessage readb = Returns msg <->
  (6 <= len readb
   /\ declared_token_length readb < 2 ^ 15
   /\ 6 + declared_token_length readb <= len readb
   /\ msg = {| Time_t := declared_timestamp readb;
               DeviceToken :=
                 hex.EncodeToString
                   (firstn (Z.to_nat (declared_token_length readb))
                      (skipn 6 readb)) |}).
Proof.
  rewrite parse_cases.
  destruct (Z.ltb_spec (len readb) 6);
    [ split; [ discriminate | intros (? & _); lia ] | ].
  destruct (Z.leb_spec (2 ^ 15) (declared_token_length readb));
    [ split; [ discriminate | intros (_ & ? & _); lia ] | ].
  destruct (Z.gtb_spec (6 + declared_token_length readb) (len readb));
    [ split; [ discriminate | intros (_ & _ & ? & _); lia ] | ].
  split.
  - intros Heq. injection Heq as <-. repeat split; lia.
  - intros (_ & _ & _ & ->). reflexivity.
Qed.

(** X1. The decoder returns a message exactly when the buffer holds the
    six-byte header, the declared token length is below 0x8000 and the
    declared token fits in the buffer; the message is then the signed
    timestamp of bytes 0 to 3 and the hex of the declared number of bytes
    after the header. *)
Theorem parse_returns_iff (readb : list byte) (msg : ApnsFeedbackMessage) :
  parseAppleFeedbackMessage readb = Returns msg <->
  (6 <= len readb
   /\ declared_token_length readb < 2 ^ 15
   /\ 6 + declared_token_length readb <= len readb
   /\ msg = {| Time_t := declared_timestamp readb;
               DeviceToken :=
                 hex.EncodeToString
                   (firstn (Z.to_nat (declared_token_length readb))
                      (skipn 6 readb)) |}).
Proof. apply parse_returns_spec. Qed.

(** X2. The decoder fails with one of its own two errors only, never
    with an error of [binary.Read]: "not enough data" exactly for buffers
    shorter than six bytes, and "bigger than the given buffer" exactly for
    a declared length below 0x8000 that does not fit. *)
Theorem parse_fails_iff (readb : list byte) (e : error) :
  parseAppleFeedbackMessage readb = Fails e <->
  ((len readb < 6 /\ e = err_not_enough_data)
   \/ (6 <= len readb
       /\ declared_token_length readb < 2 ^ 15
       /\ 6 + declared_token_length readb > len readb
       /\ e = err_token_exceeds_buffer)).
Proof.
  rewrite parse_cases.
  destruct (Z.ltb_spec (len readb) 6).
  { split.
    - intros Heq. injection Heq as <-. left. split; [ lia | reflexivity ].
    - intros [(_ & ->) | (? & _)]; [ reflexivity | lia ]. }
  destruct (Z.leb_spec (2 ^ 15) (declared_token_length readb)).
  { split; [ discriminate | ]. intros [(? & _) | (_ & ? & _)]; lia. }
  destruct (Z.gtb_spec (6 + declared_token_length readb) (len readb)).
  { split.
    - intros Heq. injection Heq as <-. right. repeat split; lia.
    - intros [(? & _) | (_ & _ & _ & ->)]; [ lia | reflexivity ]. }
  split; [ discriminate | ]. intros [(? & _) | (_ & _ & ? & _)]; lia.
Qed.

(** X3. The decoder hits a run-time panic exactly on the buffers of six
    bytes or more whose declared token length is 0x8000 or more. *)
Theorem parse_panics_iff (readb : list byte) (what : string) :
  parseAppleFeedbackMessage readb = RuntimePanic what <->
  (6 <= len readb
   /\ 2 ^ 15 <= declared_token_length readb
   /\ what = "slice bounds out of range"%string).
Proof.
  rewrite parse_cases.
  destruct (Z.ltb_spec (len readb) 6);
    [ split; [ discriminate | intros (? & _); lia ] | ].
  destruct (Z.leb_spec (2 ^ 15) (declared_token_length readb)).
  { split.
    - intros Heq. injection Heq as <-. repeat split; lia.
    - intros (_ & _ & ->). reflexivity. }
  destruct (Z.gtb_spec (6 + declared_token_length readb) (len readb));
    split; try discriminate; intros (_ & ? & _); lia.
Qed.

(** ** The device token as text *)

Lemma nibble_cases (i : Z) :
  0 <= i < 16 ->
  i = 0 \/ i = 1 \/ i = 2 \/ i = 3 \/ i = 4 \/ i = 5 \/ i = 6 \/ i = 7
  \/ i = 8 \/ i = 9 \/ i = 10 \/ i = 11 \/ i = 12 \/ i = 13 \/ i = 14
  \/ i = 15.
Proof. lia. Qed.

Lemma high_nibble_range (v : byte) : 0 <= Z.shiftr (byte.unsigned v) 4 < 16.
Proof.
  pose proof (byte.unsigned_range v) as H. rewrite Z.shiftr_div_pow2 by lia.
  change (2 ^ 4) with 16. pow2_consts. Z.div_mod_to_equations. lia.
Qed.

Lemma low_nibble_range (v : byte) : 0 <= Z.land (byte.unsigned v) 15 < 16.
Proof.
  change 15 with (Z.ones 4). rewrite Z.land_ones by lia.
  apply Z.mod_pos_bound. reflexivity.
Qed.

Lemma byte_from_nibbles (v : byte) :
  byte.unsigned v =
  16 * Z.shiftr (byte.unsigned v) 4 + Z.land (byte.unsigned v) 15.
Proof.
  change 15 with (Z.ones 4). rewrite Z.land_ones by lia.
  rewrite Z.shiftr_div_pow2 by lia. change (2 ^ 4) with 16.
  apply Z.div_mod. discriminate.
Qed.

Lemma digit_in_table (i : Z) :
  0 <= i < 16 -> In (hex.digit i) (chars hex.hextable).
Proof.
  intros H. apply nibble_cases in H.
  repeat (destruct H as [-> | H]; [ vm_compute; tauto | ]).
  subst i. vm_compute. tauto.
Qed.

Lemma digit_injective (i j : Z) :
  0 <= i < 16 -> 0 <= j < 16 -> hex.digit i = hex.digit j -> i = j.
Proof.
  intros Hi Hj. apply nibble_cases in Hi. apply nibble_cases in Hj.
  repeat (destruct Hi as [-> | Hi]);
    repeat (destruct Hj as [-> | Hj]);
    subst; first [ reflexivity | vm_compute; discriminate ].
Qed.

Lemma EncodeToString_length (src : list byte) :
  String.length (hex.EncodeToString src) = (2 * length src)%nat.
Proof.
  induction src as [ | v rest IH ]; [ reflexivity | ].
  cbn [hex.EncodeToString String.length length]. rewrite IH. lia.
Qed.

Lemma EncodeToString_alphabet (src : list byte) (c : ascii) :
  In c (chars (hex.EncodeToString src)) -> In c (chars hex.hextable).
Proof.
  induction src as [ | v rest IH ]; [ contradiction | ].
  cbn [hex.EncodeToString chars In].
  intros [<- | [<- | Hrest]].
  - apply digit_in_table, high_nibble_range.
  - apply digit_in_table, low_nibble_range.
  - apply IH, Hrest.
Qed.

Lemma EncodeToString_injective (a b : list byte) :
  hex.EncodeToString a = hex.EncodeToString b -> a = b.
Proof.
  revert b. induction a as [ | x a IH ]; intros [ | y b ] H;
    try reflexivity; try discriminate H.
  cbn [hex.EncodeToString] in H. injection H as Hhigh Hlow Hrest.
  apply digit_injective in Hhigh;
    [ | apply high_nibble_range | apply high_nibble_range ].
  apply digit_injective in Hlow;
    [ | apply low_nibble_range | apply low_nibble_range ].
  f_equal; [ | apply IH, Hrest ].
  apply byte.unsigned_inj.
  rewrite (byte_from_nibbles x), (byte_from_nibbles y). congruence.
Qed.

Lemma declared_token_size (readb : list byte) :
  0 <= declared_token_length readb ->
  6 + declared_token_length readb <= len readb ->
  len (declared_token readb) = declared_token_length readb.
Proof.
  intros Hnn Hfit. unfold declared_token, len in *.
  rewrite firstn_length_le; [ lia | ].
  rewrite length_skipn. lia.
Qed.

(** X4. The [DeviceToken] of a decoded message has two characters per
    declared token byte, each of them one of [0123456789abcdef]. *)
Theorem DeviceToken_is_lowercase_hex
  (readb : list byte) (msg : ApnsFeedbackMessage) :
  parseAppleFeedbackMessage readb = Returns msg ->
  Z.of_nat (String.length (DeviceToken msg)) = 2 * declared_token_length readb
  /\ (forall c : ascii,
        In c (chars (DeviceToken msg)) -> In c (chars "0123456789abcdef")).
Proof.
  intros H. apply parse_returns_spec in H.
  destruct H as (Hlen & Hsmall & Hfit & ->). cbn [DeviceToken].
  pose proof (Uint16_range (nth 4 readb (byte.of_Z 0)) (nth 5 readb (byte.of_Z 0)))
    as Hr. fold (declared_token_length readb) in Hr.
  split.
  - rewrite EncodeToString_length.
    pose proof (declared_token_size readb ltac:(lia) Hfit) as Hsize.
    unfold declared_token, len in Hsize. lia.
  - intros c. apply EncodeToString_alphabet.
Qed.

Lemma DeviceToken_is_lowercase_hex_witness :
  Z.of_nat (String.length "0a0b0c") = 2 * 3
  /\ (forall c : ascii,
        In c (chars "0a0b0c") -> In c (chars "0123456789abcdef")).
Proof.
  apply (DeviceToken_is_lowercase_hex
           (map byte.of_Z [0; 0; 0; 0; 0; 3; 10; 11; 12])
           {| Time_t := 0; DeviceToken := "0a0b0c" |}).
  vm_compute. reflexivity.
Defined.

(** X5. The [DeviceToken] determines the token: two buffers that decode
    to the same [DeviceToken] declare the same token bytes. *)
Theorem DeviceToken_determines_token
  (readb readb' : list byte) (msg msg' : ApnsFeedbackMessage) :
  parseAppleFeedbackMessage readb = Returns msg ->
  parseAppleFeedbackMessage readb' = Returns msg' ->
  DeviceToken msg = DeviceToken msg' ->
  declared_token readb = declared_token readb'.
Proof.
  intros H H' Heq.
  apply parse_returns_spec in H. apply parse_returns_spec in H'.
  destruct H as (_ & _ & _ & ->). destruct H' as (_ & _ & _ & ->).
  cbn [DeviceToken] in Heq. apply EncodeToString_injective, Heq.
Qed.

Lemma DeviceToken_determines_token_witness :
  declared_token (map byte.of_Z [0; 0; 0; 1; 0; 2; 171; 205])
  = declared_token (map byte.of_Z [0; 0; 0; 9; 0; 2; 171; 205; 7]).
Proof.
  apply (DeviceToken_determines_token
           (map byte.of_Z [0; 0; 0; 1; 0; 2; 171; 205])
           (map byte.of_Z [0; 0; 0; 9; 0; 2; 171; 205; 7])
           {| Time_t := 1; DeviceToken := "abcd" |}
           {| Time_t := 9; DeviceToken := "abcd" |}).
  - vm_compute. reflexivity.
  - vm_compute. reflexivity.
  - reflexivity.
Defined.

(** ** The encoders *)

(** X6. [createCommandZeroPacket] never fails; its packet is
    [u8 0 | u16 len(token) | token | u16 len(payload) | payload] and does
    not depend on the transaction id or the expiration it is given. *)
Theorem createCommandZeroPacket_wire_format
  (transactionId : Z) (expiration : Duration) (token payload : list byte) :
  createCommandZeroPacket transactionId expiration token payload =
  (legacy_push_format token payload, None).
Proof.
  unfold createCommandZeroPacket, legacy_push_format.
  cbn [bwrite binary.Write app].
  rewrite !PutUint16_u16. rewrite <- !app_assoc. reflexivity.
Qed.

Lemma u16_injective (n m : Z) :
  0 <= n < 2 ^ 16 -> 0 <= m < 2 ^ 16 -> Wire.u16 n = Wire.u16 m -> n = m.
Proof.
  intros Hn Hm H. unfold Wire.u16 in H. injection H as H1 H0.
  rewrite <- (Uint16_u16 n Hn), <- (Uint16_u16 m Hm).
  f_equal; assumption.
Qed.

Lemma u32_injective (n m : Z) :
  0 <= n < 2 ^ 32 -> 0 <= m < 2 ^ 32 -> Wire.u32 n = Wire.u32 m -> n = m.
Proof.
  intros Hn Hm H. unfold Wire.u32 in H. injection H as H3 H2 H1 H0.
  rewrite <- (Uint32_u32 n Hn), <- (Uint32_u32 m Hm).
  f_equal; assumption.
Qed.

Lemma app_same_length {A : Type} (a a' r r' : list A) :
  length a = length a' -> a ++ r = a' ++ r' -> a = a' /\ r = r'.
Proof.
  revert a'. induction a as [ | x a IH ]; intros [ | x' a' ] Hlen H;
    try discriminate Hlen.
  - auto.
  - cbn [app] in H. injection H as -> H. injection Hlen as Hlen.
    destruct (IH a' Hlen H) as [-> ->]. auto.
Qed.

Lemma sized_field_injective (a a' rest rest' : list byte) :
  0 <= len a < 2 ^ 16 -> 0 <= len a' < 2 ^ 16 ->
  Wire.u16 (len a) ++ a ++ rest = Wire.u16 (len a') ++ a' ++ rest' ->
  a = a' /\ rest = rest'.
Proof.
  intros Ha Ha' H.
  unfold Wire.u16 in H. cbn [app] in H. injection H as H1 H0 Hrest.
  assert (Hlen : len a = len a').
  { apply u16_injective; try assumption. unfold Wire.u16.
    f_equal; [ exact H1 | f_equal; exact H0 ]. }
  apply app_same_length in Hrest; [ exact Hrest | ].
  unfold len in Hlen. lia.
Qed.

Lemma u32_split (x y : Z) (r r' : list byte) :
  0 <= x < 2 ^ 32 -> 0 <= y < 2 ^ 32 ->
  Wire.u32 x ++ r = Wire.u32 y ++ r' -> x = y /\ r = r'.
Proof.
  intros Hx Hy Heq. unfold Wire.u32 in Heq. cbn [app] in Heq.
  injection Heq as E3 E2 E1 E0 Er. split; [ | exact Er ].
  apply u32_injective; try assumption. unfold Wire.u32.
  repeat (f_equal; try assumption).
Qed.

Lemma extended_push_injective
  (tid tid' epoch epoch' : Z) (token token' payload payload' : list byte) :
  0 <= tid < 2 ^ 32 -> 0 <= tid' < 2 ^ 32 ->
  0 <= epoch < 2 ^ 32 -> 0 <= epoch' < 2 ^ 32 ->
  len token < 2 ^ 16 -> len token' < 2 ^ 16 ->
  len payload < 2 ^ 16 -> len payload' < 2 ^ 16 ->
  Wire.extended_push tid epoch token payload
  = Wire.extended_push tid' epoch' token' payload' ->
  tid = tid' /\ epoch = epoch' /\ token = token' /\ payload = payload'.
Proof.
  intros Ht Ht' He He' Hk Hk' Hp Hp' H.
  pose proof (len_nonneg token). pose proof (len_nonneg token').
  unfold Wire.extended_push in H. apply app_inv_head in H.
  apply u32_split in H; try assumption. destruct H as [-> H].
  apply u32_split in H; try assumption. destruct H as [-> H].
  apply sized_field_injective in H; try lia. destruct H as [-> H].
  unfold Wire.u16 in H. cbn [app] in H. injection H as _ _ ->.
  auto.
Qed.

Lemma extended_push_epoch_wraps
  (tid epoch : Z) (token payload : list byte) :
  Wire.extended_push tid epoch token payload
  = Wire.extended_push tid (uint32 epoch) token payload.
Proof.
  unfold Wire.extended_push.
  rewrite <- (PutUint32_any (uint32 epoch)), PutUint32_u32. reflexivity.
Qed.

(** X7. A packet of [createCommandOnePacket] determines what went into
    it: with transaction ids below 2^32 and tokens and payloads shorter
    than 65536 bytes, two calls that produce the same bytes had the same
    transaction id, token and payload, and the same expiration second
    modulo 2^32. *)
Theorem createCommandOnePacket_injective
  (now now' : Time) (tid tid' : Z) (expiration expiration' : Duration)
  (token token' payload payload' : list byte) :
  0 <= tid < 2 ^ 32 -> 0 <= tid' < 2 ^ 32 ->
  len token < 2 ^ 16 -> len token' < 2 ^ 16 ->
  len payload < 2 ^ 16 -> len payload' < 2 ^ 16 ->
  createCommandOnePacket now tid expiration token payload
  = createCommandOnePacket now' tid' expiration' token' payload' ->
  tid = tid' /\ token = token' /\ payload = payload'
  /\ uint32 (Time_Unix (Time_Add now expiration))
     = uint32 (Time_Unix (Time_Add now' expiration')).
Proof.
  intros Ht Ht' Hk Hk' Hp Hp' H.
  rewrite !createCommandOnePacket_ok in H.
  apply (f_equal fst) in H. cbn [fst] in H.
  rewrite (extended_push_epoch_wraps tid),
          (extended_push_epoch_wraps tid') in H.
  assert (Hr : forall x, 0 <= uint32 x < 2 ^ 32)
    by (intros x; unfold uint32; apply Z.mod_pos_bound; reflexivity).
  apply extended_push_injective in H; auto.
  destruct H as (-> & -> & -> & ->). auto.
Qed.

Lemma createCommandOnePacket_injective_witness :
  7 = 7 /\ map byte.of_Z [1; 2] = map byte.of_Z [1; 2]
  /\ map byte.of_Z [123; 125] = map byte.of_Z [123; 125]
  /\ uint32 (Time_Unix (Time_Add (1351555200 * Second) (3600 * Second)))
     = uint32 (Time_Unix (Time_Add (1351555200 * Second + 5) (3600 * Second))).
Proof.
  apply (createCommandOnePacket_injective
           (1351555200 * Second) (1351555200 * Second + 5) 7 7
           (3600 * Second) (3600 * Second)
           (map byte.of_Z [1; 2]) (map byte.of_Z [1; 2])
           (map byte.of_Z [123; 125]) (map byte.of_Z [123; 125]));
    try lia; try (vm_compute; reflexivity).
Defined.

(** ** connect and shutdown *)

Lemma connect_success_spec (net : Net) (w : World) :
  conn_invariant (client w) ->
  fst (connect net w) = Val None ->
  connected (client (snd (connect net w))) = true
  /\ live (client (snd (connect net w))) = true
  /\ connect net (snd (connect net w)) = (Val None, snd (connect net w)).
Proof.
  destruct w as [[h ep r t m c] [nd nh nc nw nr nn] tr]. go_unfold.
  intros Hinv.
  destruct c.
  - intros _. go_unfold. rewrite <- Hinv. auto.
  - destruct h as [[id hs cl] | ]; go_unfold;
      destruct (dial_result net nd); go_unfold; try discriminate;
      destruct (handshake_result net nh); go_unfold; try discriminate;
      auto.
Qed.

(** X8. A [connect] that returns [nil] leaves a reachable client
    connected on a handle that has completed its handshake and is not
    closed, and a second [connect] right after it does nothing at all. *)
Theorem connect_success_is_stable (net : Net) (w : World) :
  reachable net w ->
  fst (connect net w) = Val None ->
  connected (client (snd (connect net w))) = true
  /\ live (client (snd (connect net w))) = true
  /\ connect net (snd (connect net w)) = (Val None, snd (connect net w)).
Proof.
  intros Hreach Hok.
  apply connect_success_spec;
    [ apply (reachable_invariant net), Hreach | exact Hok ].
Qed.

Lemma connect_success_is_stable_witness :
  connected (client (snd (connect (answering ([], None)) shut_down_client)))
  = true
  /\ live (client (snd (connect (answering ([], None)) shut_down_client)))
     = true
  /\ connect (answering ([], None))
       (snd (connect (answering ([], None)) shut_down_client))
     = (Val None, snd (connect (answering ([], None)) shut_down_client)).
Proof.
  apply (connect_success_is_stable (answering ([], None)) shut_down_client).
  - unfold shut_down_client. apply reach_step, reach_step, reach_new.
  - vm_compute. reflexivity.
Defined.

(** X9. On a disconnected client that still holds a handle, [connect]
    closes that handle before it dials; a refused dial ends the call there
    and leaves the closed old handle in the client, and an accepted dial
    is followed by the handshake on the new connection. *)
Theorem connect_closes_stale_handle_before_dial
  (net : Net) (w : World) (h : tlsConn) :
  connected (client w) = false ->
  tlsconn (client w) = Some h ->
  match dial_result net (n_Dial (calls w)) with
  | Some e =>
      fst (connect net w) = Val (Some e)
      /\ trace (snd (connect net w)) =
         trace w ++ [E_Close (conn_id h); E_Dial (endpoint (client w))]
      /\ tlsconn (client (snd (connect net w))) = Some (closed_handle h)
  | None =>
      fst (connect net w) = Val (handshake_result net (n_Handshake (calls w)))
      /\ trace (snd (connect net w)) =
         trace w ++ [E_Close (conn_id h); E_Dial (endpoint (client w));
                     E_Handshake (n_Dial (calls w))]
  end.
Proof.
  destruct w as [[h0 ep r t m c] [nd nh nc nw nr nn] tr]. go_unfold.
  intros -> ->. destruct h as [id hs cl]. go_unfold.
  destruct (dial_result net nd); go_unfold.
  - rewrite <- !app_assoc. auto.
  - destruct (handshake_result net nh); go_unfold;
      rewrite <- !app_assoc; auto.
Qed.

Lemma connect_closes_stale_handle_before_dial_witness :
  fst (connect (answering ([], None)) shut_down_client) = Val None
  /\ trace (snd (connect (answering ([], None)) shut_down_client)) =
     trace shut_down_client ++ [E_Close 0; E_Dial gateway; E_Handshake 1].
Proof.
  apply (connect_closes_stale_handle_before_dial (answering ([], None))
           shut_down_client
           {| conn_id := 0; handshake_done := true; conn_closed := true |});
    reflexivity.
Defined.

(** X10. [shutdown] does not forget the handle and does not remember
    that it closed it: with a handle present, two calls in a row call
    [Close] on it twice, the second call returns what the second [Close]
    returns, and the handle is still in the client afterwards. *)
Theorem shutdown_twice_closes_twice (net : Net) (w : World) (h : tlsConn) :
  tlsconn (client w) = Some h ->
  fst (shutdown net (snd (shutdown net w)))
    = Val (close_result net (S (n_Close (calls w))))
  /\ trace (snd (shutdown net (snd (shutdown net w)))) =
     trace w ++ [E_Close (conn_id h); E_Close (conn_id h)]
  /\ tlsconn (client (snd (shutdown net (snd (shutdown net w)))))
     = Some (closed_handle h)
  /\ connected (client (snd (shutdown net (snd (shutdown net w))))) = false.
Proof.
  destruct w as [[h0 ep r t m c] [nd nh nc nw nr nn] tr]. go_unfold.
  intros ->. destruct h as [id hs cl]. go_unfold.
  rewrite <- !app_assoc. auto.
Qed.

Lemma shutdown_twice_closes_twice_witness :
  trace (snd (shutdown (answering ([], None))
                (snd (shutdown (answering ([], None)) shut_down_client)))) =
  trace shut_down_client ++ [E_Close 0; E_Close 0].
Proof.
  apply (shutdown_twice_closes_twice (answering ([], None)) shut_down_client
           {| conn_id := 0; handshake_done := true; conn_closed := true |}).
  reflexivity.
Defined.

(** ** SendPayload, path by path *)

Ltac send_paths :=
  repeat (rewrite ?createCommandOnePacket_ok; go_unfold; go_cases).

Lemma SendPayload_result_spec (net : Net) (token payload : list byte)
  (expiration : Duration) (w : World) :
  conn_invariant (client w) ->
  len payload <= MAX_PAYLOAD_SIZE (client w) ->
  exists (r : option error) (w' : World),
    SendPayload net token payload expiration w = (Val r, w')
    /\ (r = None <-> connected (client w') = true).
Proof.
  destruct w as [[h ep rt t m c] [nd nh nc nw nr nn] tr]. go_unfold.
  intros Hinv Hlen.
  destruct (Z.gtb_spec (len payload) m) as [ | _ ]; [ lia | ]. go_unfold.
  destruct c, h as [[id hs cl] | ]; go_unfold; try discriminate Hinv;
    send_paths;
    do 2 eexists; (split; [ reflexivity | ]); go_unfold;
    split; intros; congruence.
Qed.

Lemma SendPayload_lock_spec (net : Net) (token payload : list byte)
  (expiration : Duration) (w : World) :
  conn_invariant (client w) ->
  len payload <= MAX_PAYLOAD_SIZE (client w) ->
  exists rest : list event,
    trace (snd (SendPayload net token payload expiration w))
      = trace w ++ E_Lock :: rest
    /\ filter is_lock rest = [E_Unlock]
    /\ last rest E_Lock = E_Unlock.
Proof.
  destruct w as [[h ep rt t m c] [nd nh nc nw nr nn] tr]. go_unfold.
  intros Hinv Hlen.
  destruct (Z.gtb_spec (len payload) m) as [ | _ ]; [ lia | ]. go_unfold.
  destruct c, h as [[id hs cl] | ]; go_unfold; try discriminate Hinv;
    send_paths;
    rewrite <- !app_assoc; cbn [app];
    eexists; (split; [ reflexivity | ]); split; reflexivity.
Qed.

(** X11. On a reachable client, a [SendPayload] whose payload passes the
    size check never panics, and it returns [nil] exactly when the client
    is connected as it returns: every error return, of whatever kind,
    leaves the client disconnected. *)
Theorem SendPayload_nil_iff_connected (net : Net) (token payload : list byte)
  (expiration : Duration) (w : World) :
  reachable net w ->
  len payload <= MAX_PAYLOAD_SIZE (client w) ->
  exists (r : option error) (w' : World),
    SendPayload net token payload expiration w = (Val r, w')
    /\ (r = None <-> connected (client w') = true).
Proof.
  intros Hreach Hlen.
  apply SendPayload_result_spec;
    [ apply (reachable_invariant net), Hreach | exact Hlen ].
Qed.

Lemma SendPayload_nil_iff_connected_witness :
  exists (r : option error) (w' : World),
    SendPayload (answering (map byte.of_Z [8; 0], None))
      (repeat (byte.of_Z 171) 32) (map byte.of_Z [123; 125]) (3600 * Second)
      (new_world gateway) = (Val r, w')
    /\ (r = None <-> connected (client w') = true).
Proof.
  apply (SendPayload_nil_iff_connected (answering (map byte.of_Z [8; 0], None))
           (repeat (byte.of_Z 171) 32) (map byte.of_Z [123; 125])
           (3600 * Second) (new_world gateway)).
  - apply reach_new.
  - vm_compute. discriminate.
Defined.

(** X12. A [SendPayload] whose payload passes the size check takes the
    client's lock first and releases it last, once each, on every path:
    what it adds to the trace starts with the lock, ends with the unlock,
    and has no other lock event in between. *)
Theorem SendPayload_locks_once (net : Net) (token payload : list byte)
  (expiration : Duration) (w : World) :
  reachable net w ->
  len payload <= MAX_PAYLOAD_SIZE (client w) ->
  exists rest : list event,
    trace (snd (SendPayload net token payload expiration w))
      = trace w ++ E_Lock :: rest
    /\ filter is_lock rest = [E_Unlock]
    /\ last rest E_Lock = E_Unlock.
Proof.
  intros Hreach Hlen.
  apply SendPayload_lock_spec;
    [ apply (reachable_invariant net), Hreach | exact Hlen ].
Qed.

Lemma SendPayload_locks_once_witness :
  exists rest : list event,
    trace (snd (SendPayload (answering ([], Some (net_Error false)))
                  (repeat (byte.of_Z 171) 32) (map byte.of_Z [123; 125])
                  (3600 * Second) (new_world gateway)))
      = trace (new_world gateway) ++ E_Lock :: rest
    /\ filter is_lock rest = [E_Unlock]
    /\ last rest E_Lock = E_Unlock.
Proof.
  apply (SendPayload_locks_once (answering ([], Some (net_Error false)))
           (repeat (byte.of_Z 171) 32) (map byte.of_Z [123; 125])
           (3600 * Second) (new_world gateway)).
  - apply reach_new.
  - vm_compute. discriminate.
Defined.

(** X13. When [connect] fails inside [SendPayload], the call returns
    that error without using a transaction id, writing or reading; the
    client is left disconnected with no open handle, and a connection
    whose dial succeeded but whose handshake failed is closed by the
    deferred handler. *)
Theorem SendPayload_connect_failure (net : Net) (token payload : list byte)
  (expiration : Duration) (w : World) (e : error) :
  len payload <= MAX_PAYLOAD_SIZE (client w) ->
  connect_fails net w e ->
  exists w' : World,
    SendPayload net token payload expiration w = (Val (Some e), w')
    /\ transactionId (client w') = transactionId (client w)
    /\ n_Write (calls w') = n_Write (calls w)
    /\ n_Read (calls w') = n_Read (calls w)
    /\ connected (client w') = false
    /\ live (client w') = false
    /\ (dial_result net (n_Dial (calls w)) = None ->
        In (E_Close (n_Dial (calls w))) (trace w')).
Proof.
  destruct w as [[h ep rt t m c] [nd nh nc nw nr nn] tr].
  unfold connect_fails. go_unfold.
  intros Hlen (-> & Hfail).
  destruct (Z.gtb_spec (len payload) m) as [ | _ ]; [ lia | ]. go_unfold.
  destruct Hfail as [Hdial | [Hdial Hhs]].
  - destruct h as [[id hs cl] | ]; go_unfold; rewrite Hdial; go_unfold;
      eexists; (split; [ reflexivity | ]); go_unfold;
      rewrite ?andb_false_r; repeat split; try reflexivity;
      intros; discriminate.
  - destruct h as [[id hs cl] | ]; go_unfold; rewrite Hdial; go_unfold;
      rewrite Hhs; go_unfold;
      eexists; (split; [ reflexivity | ]); go_unfold;
      rewrite ?andb_false_r; repeat split; try reflexivity;
      intros _; rewrite !in_app_iff; cbn [In]; auto 10.
Qed.

Lemma SendPayload_connect_failure_witness :
  exists w' : World,
    SendPayload no_route (repeat (byte.of_Z 171) 32)
      (map byte.of_Z [123; 125]) (3600 * Second) (new_world gateway)
      = (Val (Some (net_Error false)), w')
    /\ transactionId (client w') = 0
    /\ n_Write (calls w') = 0%nat
    /\ n_Read (calls w') = 0%nat
    /\ connected (client w') = false
    /\ live (client w') = false
    /\ (dial_result no_route 0 = None -> In (E_Close 0%nat) (trace w')).
Proof.
  apply (SendPayload_connect_failure no_route (repeat (byte.of_Z 171) 32)
           (map byte.of_Z [123; 125]) (3600 * Second) (new_world gateway)
           (net_Error false)).
  - vm_compute. discriminate.
  - split; [ reflexivity | left; reflexivity ].
Defined.

Lemma SendPayload_write_spec (net : Net) (token payload : list byte)
  (expiration : Duration) (w : World) :
  conn_invariant (client w) ->
  reaches_write net w payload ->
  exists (id : nat) (r : option error) (w' : World),
    SendPayload net token payload expiration w = (Val r, w')
    /\ transactionId (client w') = uint32 (transactionId (client w) + 1)
    /\ n_Write (calls w') = S (n_Write (calls w))
    /\ In (E_Write id
             (fst (createCommandOnePacket
                     (now_result net (n_Now (calls w)))
                     (uint32 (transactionId (client w) + 1))
                     expiration token payload)))
          (trace w')
    /\ (forall e : error,
          write_result net (n_Write (calls w)) = Some e ->
          r = Some e
          /\ n_Read (calls w') = n_Read (calls w)
          /\ connected (client w') = false
          /\ live (client w') = false).
Proof.
  destruct w as [[h ep rt t m c] [nd nh nc nw nr nn] tr].
  unfold reaches_write. go_unfold.
  intros Hinv (Hlen & Hconn).
  destruct (Z.gtb_spec (len payload) m) as [ | _ ]; [ lia | ]. go_unfold.
  destruct c.
  - destruct h as [[id hs cl] | ]; [ | discriminate Hinv ].
    destruct hs, cl; try discriminate Hinv.
    send_paths;
      do 3 eexists; (split; [ reflexivity | ]); go_unfold;
      (split; [ reflexivity | ]); (split; [ reflexivity | ]);
      (split; [ rewrite !in_app_iff; cbn [In]; auto 10 | ]);
      intros e' He'; try discriminate He'; injection He' as <-;
      repeat split; reflexivity.
  - destruct Hconn as [Hc | [Hdial Hhs]]; [ discriminate Hc | ].
    destruct h as [[id hs cl] | ]; go_unfold;
      rewrite Hdial; go_unfold; rewrite Hhs; go_unfold;
      send_paths;
      do 3 eexists; (split; [ reflexivity | ]); go_unfold;
      (split; [ reflexivity | ]); (split; [ reflexivity | ]);
      (split; [ rewrite !in_app_iff; cbn [In]; auto 10 | ]);
      intros e' He'; try discriminate He'; injection He' as <-;
      repeat split; reflexivity.
Qed.

(** X14. When the write fails, [SendPayload] returns the write's error
    and shuts the connection down without attempting the read; the
    transaction id it took stays consumed. *)
Theorem SendPayload_write_failure (net : Net) (token payload : list byte)
  (expiration : Duration) (w : World) (e : error) :
  reachable net w ->
  reaches_write net w payload ->
  write_result net (n_Write (calls w)) = Some e ->
  exists w' : World,
    SendPayload net token payload expiration w = (Val (Some e), w')
    /\ transactionId (client w') = uint32 (transactionId (client w) + 1)
    /\ n_Read (calls w') = n_Read (calls w)
    /\ connected (client w') = false
    /\ live (client w') = false.
Proof.
  intros Hreach Hsend Hwrite.
  destruct (SendPayload_write_spec net token payload expiration w
              (reachable_invariant net w Hreach) Hsend)
    as (id & r & w' & Hrun & Htid & _ & _ & Hfail).
  destruct (Hfail e Hwrite) as (-> & Hread & Hconn & Hlive).
  exists w'. auto.
Qed.

Lemma SendPayload_write_failure_witness :
  exists w' : World,
    SendPayload broken_pipe (repeat (byte.of_Z 171) 32)
      (map byte.of_Z [123; 125]) (3600 * Second) (new_world gateway)
      = (Val (Some (net_Error false)), w')
    /\ transactionId (client w') = uint32 (0 + 1)
    /\ n_Read (calls w') = 0%nat
    /\ connected (client w') = false
    /\ live (client w') = false.
Proof.
  apply (SendPayload_write_failure broken_pipe (repeat (byte.of_Z 171) 32)
           (map byte.of_Z [123; 125]) (3600 * Second) (new_world gateway)
           (net_Error false)).
  - apply reach_new.
  - split; [ vm_compute; discriminate | right; split; reflexivity ].
  - reflexivity.
Defined.

(** X15. Every [SendPayload] that gets past [connect] takes the next
    transaction id, the old one plus one modulo 2^32, and makes exactly
    one write, of the packet [createCommandOnePacket] builds for that id,
    the clock, the expiration, the token and the payload. *)
Theorem SendPayload_writes_next_transaction
  (net : Net) (token payload : list byte) (expiration : Duration)
  (w : World) :
  reachable net w ->
  reaches_write net w payload ->
  exists (id : nat) (r : option error) (w' : World),
    SendPayload net token payload expiration w = (Val r, w')
    /\ transactionId (client w') = uint32 (transactionId (client w) + 1)
    /\ n_Write (calls w') = S (n_Write (calls w))
    /\ In (E_Write id
             (fst (createCommandOnePacket
                     (now_result net (n_Now (calls w)))
                     (uint32 (transactionId (client w) + 1))
                     expiration token payload)))
          (trace w').
Proof.
  intros Hreach Hsend.
  destruct (SendPayload_write_spec net token payload expiration w
              (reachable_invariant net w Hreach) Hsend)
    as (id & r & w' & Hrun & Htid & Hcount & Hpkt & _).
  exists id, r, w'. auto.
Qed.

Lemma SendPayload_writes_next_transaction_witness :
  exists (id : nat) (r : option error) (w' : World),
    SendPayload (answering ([], Some (net_Error true)))
      (repeat (byte.of_Z 171) 32) (map byte.of_Z [123; 125]) (3600 * Second)
      (new_world gateway) = (Val r, w')
    /\ transactionId (client w') = uint32 (0 + 1)
    /\ n_Write (calls w') = 1%nat
    /\ In (E_Write id
             (fst (createCommandOnePacket (1351555200 * Second)
                     (uint32 (0 + 1)) (3600 * Second)
                     (repeat (byte.of_Z 171) 32) (map byte.of_Z [123; 125]))))
          (trace w').
Proof.
  apply (SendPayload_writes_next_transaction
           (answering ([], Some (net_Error true)))
           (repeat (byte.of_Z 171) 32) (map byte.of_Z [123; 125])
           (3600 * Second) (new_world gateway)).
  - apply reach_new.
  - split; [ vm_compute; discriminate | right; split; reflexivity ].
Defined.

Lemma check_reply_short (data : list byte) :
  len data <= 1 ->
  check_reply (firstn 6 data ++ repeat (byte.of_Z 0) (6 - length (firstn 6 data)))
    (len (firstn 6 data)) = None.
Proof.
  intros Hlen.
  destruct data as [ | a [ | b rest ] ];
    [ reflexivity | reflexivity | ].
  unfold len in Hlen. simpl length in Hlen. lia.
Qed.

(** X16. A read that fails with anything but a timeout makes
    [SendPayload] return that error and close the connection right after
    the read. *)
Theorem SendPayload_read_failure (net : Net) (token payload : list byte)
  (expiration : Duration) (w : World) (data : list byte) (e : error) :
  reachable net w ->
  reaches_read net w payload ->
  read_result net (n_Read (calls w)) = (data, Some e) ->
  is_net_timeout e = false ->
  exists (w' : World) (id : nat) (pre : list event) (pkt : list byte)
         (deadline : option Time),
    SendPayload net token payload expiration w = (Val (Some e), w')
    /\ connected (client w') = false
    /\ trace w' = pre ++ [E_Write id pkt; E_SetReadDeadline id deadline;
                          E_Read id 6; E_Close id; E_Unlock].
Proof.
  intros Hreach Hsend Hread Hkind.
  destruct (SendPayload_reads_reply net token payload expiration w
              (reachable_invariant net w Hreach) Hsend)
    as (w' & id & pre & pkt & deadline & Hrun & _ & Hafter).
  rewrite Hread in Hrun, Hafter. unfold reply_of in Hrun, Hafter.
  rewrite Hkind in Hrun, Hafter.
  destruct Hafter as (Hconn & _ & Htrace).
  exists w', id, pre, pkt, deadline. auto.
Qed.

Lemma SendPayload_read_failure_witness :
  exists (w' : World) (id : nat) (pre : list event) (pkt : list byte)
         (deadline : option Time),
    SendPayload (answering ([], Some io_EOF))
      (repeat (byte.of_Z 171) 32) (map byte.of_Z [123; 125]) (3600 * Second)
      (new_world gateway) = (Val (Some io_EOF), w')
    /\ connected (client w') = false
    /\ trace w' = pre ++ [E_Write id pkt; E_SetReadDeadline id deadline;
                          E_Read id 6; E_Close id; E_Unlock].
Proof.
  apply (SendPayload_read_failure (answering ([], Some io_EOF))
           (repeat (byte.of_Z 171) 32) (map byte.of_Z [123; 125])
           (3600 * Second) (new_world gateway) [] io_EOF).
  - apply reach_new.
  - split; [ vm_compute; discriminate | ].
    split; [ right; split; reflexivity | reflexivity ].
  - reflexivity.
  - reflexivity.
Defined.

(** X17. A reply read without error counts as success when it is
    shorter than two bytes (an empty read included) or when its status
    byte is 0: [SendPayload] returns [nil] and the client stays connected
    on its open handle. *)
Theorem SendPayload_quiet_reply_is_success
  (net : Net) (token payload : list byte) (expiration : Duration)
  (w : World) (data : list byte) :
  reachable net w ->
  reaches_read net w payload ->
  read_result net (n_Read (calls w)) = (data, None) ->
  len data <= 1 \/ byte.unsigned (nth 1 data (byte.of_Z 0)) = 0 ->
  exists (w' : World) (id : nat),
    SendPayload net token payload expiration w = (Val None, w')
    /\ connected (client w') = true
    /\ tlsconn (client w') =
       Some {| conn_id := id; handshake_done := true; conn_closed := false |}.
Proof.
  intros Hreach Hsend Hread Hquiet.
  destruct (SendPayload_reads_reply net token payload expiration w
              (reachable_invariant net w Hreach) Hsend)
    as (w' & id & pre & pkt & deadline & Hrun & _ & Hafter).
  rewrite Hread in Hrun, Hafter. unfold reply_of in Hrun, Hafter.
  assert (Hnone : check_reply
            (firstn 6 data ++ repeat (byte.of_Z 0) (6 - length (firstn 6 data)))
            (len (firstn 6 data)) = None).
  { destruct (Z.le_gt_cases (len data) 1) as [Hshort | Hlong].
    - apply check_reply_short, Hshort.
    - destruct Hquiet as [Hshort | Hzero]; [ lia | ].
      rewrite check_reply_status by lia. cbv zeta. rewrite Hzero. reflexivity. }
  rewrite Hnone in Hrun, Hafter.
  destruct Hafter as (Hconn & Hhandle & _).
  exists w', id. auto.
Qed.

Lemma SendPayload_quiet_reply_is_success_witness :
  exists (w' : World) (id : nat),
    SendPayload (answering (map byte.of_Z [8], None))
      (repeat (byte.of_Z 171) 32) (map byte.of_Z [123; 125]) (3600 * Second)
      (new_world gateway) = (Val None, w')
    /\ connected (client w') = true
    /\ tlsconn (client w') =
       Some {| conn_id := id; handshake_done := true; conn_closed := false |}.
Proof.
  apply (SendPayload_quiet_reply_is_success
           (answering (map byte.of_Z [8], None))
           (repeat (byte.of_Z 171) 32) (map byte.of_Z [123; 125])
           (3600 * Second) (new_world gateway) (map byte.of_Z [8])).
  - apply reach_new.
  - split; [ vm_compute; discriminate | ].
    split; [ right; split; reflexivity | reflexivity ].
  - reflexivity.
  - left. vm_compute. discriminate.
Defined.

Lemma SendPayload_disconnected_dials (net : Net) (token payload : list byte)
  (expiration : Duration) (w : World) :
  connected (client w) = false ->
  len payload <= MAX_PAYLOAD_SIZE (client w) ->
  exists closes rest : list event,
    trace (snd (SendPayload net token payload expiration w))
      = trace w ++ E_Lock :: closes ++ E_Dial (endpoint (client w)) :: rest
    /\ (closes = [] \/ exists id : nat, closes = [E_Close id]).
Proof.
  destruct w as [[h ep rt t m c] [nd nh nc nw nr nn] tr]. go_unfold.
  intros -> Hlen.
  destruct (Z.gtb_spec (len payload) m) as [ | _ ]; [ lia | ]. go_unfold.
  destruct h as [[id hs cl] | ]; go_unfold.
  - send_paths; rewrite <- !app_assoc; cbn [app];
      exists [E_Close id]; eexists;
      (split; [ cbn [app]; reflexivity | right; exists id; reflexivity ]).
  - send_paths; rewrite <- !app_assoc; cbn [app];
      exists []; eexists;
      (split; [ cbn [app]; reflexivity | left; reflexivity ]).
Qed.

(** X18. After a [SendPayload] that returned an error, the next
    [SendPayload] does not reuse the connection: once it holds the lock it
    closes the handle left behind, if there is one, and dials the endpoint
    again before anything else. *)
Theorem SendPayload_redials_after_failure
  (net : Net) (token payload token' payload' : list byte)
  (expiration expiration' : Duration) (w : World) (e : error) :
  reachable net w ->
  len payload <= MAX_PAYLOAD_SIZE (client w) ->
  len payload' <= MAX_PAYLOAD_SIZE (client w) ->
  fst (SendPayload net token payload expiration w) = Val (Some e) ->
  exists closes rest : list event,
    trace (snd (SendPayload net token' payload' expiration'
                  (snd (SendPayload net token payload expiration w))))
      = trace (snd (SendPayload net token payload expiration w))
        ++ E_Lock :: closes ++ E_Dial (endpoint (client w)) :: rest
    /\ (closes = [] \/ exists id : nat, closes = [E_Close id]).
Proof.
  intros Hreach Hlen Hlen' Hfail.
  assert (Hkeep : MAX_PAYLOAD_SIZE
                    (client (snd (SendPayload net token payload expiration w)))
                  = MAX_PAYLOAD_SIZE (client w)
                  /\ endpoint
                       (client (snd (SendPayload net token payload expiration w)))
                     = endpoint (client w)).
  { clear. destruct w as [[h ep rt t m c] [nd nh nc nw nr nn] tr]. go_unfold.
    destruct (len payload >? m); go_unfold; [ auto | ].
    destruct c, h as [[id hs cl] | ]; send_paths; auto. }
  destruct Hkeep as [Hmax Hep].
  destruct (SendPayload_result_spec net token payload expiration w
              (reachable_invariant net w Hreach) Hlen)
    as (r & w' & Hrun & Hiff).
  rewrite Hrun in *. cbn [fst snd] in *.
  injection Hfail as ->.
  assert (Hdown : connected (client w') = false).
  { destruct (connected (client w')); [ | reflexivity ].
    destruct Hiff as [_ Hback]. discriminate (Hback eq_refl). }
  rewrite <- Hep.
  apply SendPayload_disconnected_dials; [ exact Hdown | lia ].
Qed.

Lemma SendPayload_redials_after_failure_witness :
  exists closes rest : list event,
    trace (snd (SendPayload broken_pipe (repeat (byte.of_Z 171) 32)
                  (map byte.of_Z [123; 125]) (3600 * Second)
                  (snd (SendPayload broken_pipe (repeat (byte.of_Z 171) 32)
                          (map byte.of_Z [123; 125]) (3600 * Second)
                          (new_world gateway)))))
      = trace (snd (SendPayload broken_pipe (repeat (byte.of_Z 171) 32)
                      (map byte.of_Z [123; 125]) (3600 * Second)
                      (new_world gateway)))
        ++ E_Lock :: closes ++ E_Dial (endpoint (client (new_world gateway)))
             :: rest
    /\ (closes = [] \/ exists id : nat, closes = [E_Close id]).
Proof.
  apply (SendPayload_redials_after_failure broken_pipe
           (repeat (byte.of_Z 171) 32) (map byte.of_Z [123; 125])
           (repeat (byte.of_Z 171) 32) (map byte.of_Z [123; 125])
           (3600 * Second) (3600 * Second) (new_world gateway)
           (net_Error false)).
  - apply reach_new.
  - vm_compute. discriminate.
  - vm_compute. discriminate.
  - vm_compute. reflexivity.
Defined.

(** ** The listener, case by case *)

Lemma listen_iteration_data (net : Net) (id : nat) (w : World)
  (data : list byte) :
  read_result net (n_Read (calls w)) = (data, None) ->
  listen_iteration net (Some id) w =
  match parseAppleFeedbackMessage (firstn 38 data) with
  | Returns msg => (Val (Some id), record (E_Send msg) (after_read id w))
  | Fails e =>
      (Panicked (Error e),
       record (E_Panic (Error e)) (record E_CloseChan (after_read id w)))
  | RuntimePanic what =>
      (Panicked what, record (E_Panic what) (after_read id w))
  end.
Proof.
  intros Hread.
  unfold listen_iteration, bufio_Read, read_into, bind at 1.
  rewrite Hread. change (4 + 2 + 32)%nat with 38%nat.
  replace (firstn (Z.to_nat (len (firstn 38 data)))
             (firstn 38 data
                ++ repeat (byte.of_Z 0) (38 - length (firstn 38 data))))
    with (firstn 38 data).
  2:{ unfold len. rewrite Nat2Z.id, firstn_app, Nat.sub_diag, firstn_all.
      cbn [firstn]. rewrite app_nil_r. reflexivity. }
  destruct (parseAppleFeedbackMessage (firstn 38 data)); reflexivity.
Qed.

Lemma len_firstn_le {A : Type} (n : nat) (l : list A) :
  len (firstn n l) <= len l /\ len (firstn n l) <= Z.of_nat n.
Proof.
  unfold len. rewrite length_firstn. lia.
Qed.

(** X19. If the first [connect] of [StartListening] fails, the call
    panics with that error before the goroutine exists: nothing is read,
    and the channel is neither fed nor closed. *)
Theorem StartListening_first_connect_fails
  (net : Net) (turns : nat) (w : World) (e : error) :
  connect_fails net w e ->
  exists w' : World,
    StartListening net turns w = (Panicked (Error e), w')
    /\ n_Read (calls w') = n_Read (calls w)
    /\ filter is_channel_event (trace w') = filter is_channel_event (trace w)
    /\ last (trace w') E_Lock = E_Panic (Error e).
Proof.
  destruct w as [[h ep rt t m c] [nd nh nc nw nr nn] tr].
  unfold connect_fails, StartListening. go_unfold.
  intros (-> & Hfail).
  destruct Hfail as [Hdial | [Hdial Hhs]];
    destruct h as [[id hs cl] | ]; go_unfold; rewrite Hdial; go_unfold;
    rewrite ?Hhs; go_unfold;
    eexists; (split; [ reflexivity | ]); go_unfold;
    (split; [ reflexivity | ]);
    rewrite !filter_app, !last_last; cbn [filter is_channel_event];
    rewrite ?app_nil_r; auto.
Qed.

Lemma StartListening_first_connect_fails_witness :
  exists w' : World,
    StartListening no_route 5 (new_world APPLE_FEEDBACK)
      = (Panicked (Error (net_Error false)), w')
    /\ n_Read (calls w') = n_Read (calls (new_world APPLE_FEEDBACK))
    /\ filter is_channel_event (trace w')
       = filter is_channel_event (trace (new_world APPLE_FEEDBACK))
    /\ last (trace w') E_Lock = E_Panic (Error (net_Error false)).
Proof.
  apply (StartListening_first_connect_fails no_route 5
           (new_world APPLE_FEEDBACK) (net_Error false)).
  split; [ reflexivity | left; reflexivity ].
Defined.

(** X20. A read error other than [io.EOF] ends the listener: it closes
    the channel and panics with the error, without any attempt to
    reconnect. *)
Theorem listener_read_error_is_fatal
  (net : Net) (id : nat) (w : World) (data : list byte) (e : error) :
  read_result net (n_Read (calls w)) = (data, Some e) ->
  is_EOF e = false ->
  exists w' : World,
    listen_iteration net (Some id) w = (Panicked (Error e), w')
    /\ trace w' = trace w ++ [E_Read id 38; E_CloseChan; E_Panic (Error e)]
    /\ n_Dial (calls w') = n_Dial (calls w).
Proof.
  intros Hread Hkind.
  unfold listen_iteration, bufio_Read, read_into, bind at 1.
  rewrite Hread, Hkind.
  eexists. split; [ reflexivity | ].
  cbn [trace calls record with_calls n_Dial tick_Read].
  rewrite <- !app_assoc. auto.
Qed.

Lemma listener_read_error_is_fatal_witness :
  exists w' : World,
    listen_iteration (answering ([], Some (net_Error true))) (Some 0%nat)
      (new_world APPLE_FEEDBACK)
      = (Panicked (Error (net_Error true)), w')
    /\ trace w' = trace (new_world APPLE_FEEDBACK)
                  ++ [E_Read 0 38; E_CloseChan; E_Panic (Error (net_Error true))]
    /\ n_Dial (calls w') = n_Dial (calls (new_world APPLE_FEEDBACK)).
Proof.
  apply (listener_read_error_is_fatal (answering ([], Some (net_Error true)))
           0%nat (new_world APPLE_FEEDBACK) [] (net_Error true));
    reflexivity.
Defined.

(** X21. A read that brings fewer than six bytes, an empty read
    included, ends the listener: the bytes are not kept for the next read,
    the channel is closed and the goroutine panics with "Not enough data
    in slice". *)
Theorem listener_short_read_is_fatal
  (net : Net) (id : nat) (w : World) (data : list byte) :
  read_result net (n_Read (calls w)) = (data, None) ->
  len data < 6 ->
  exists w' : World,
    listen_iteration net (Some id) w
      = (Panicked "Not enough data in slice", w')
    /\ trace w' = trace w ++ [E_Read id 38; E_CloseChan;
                              E_Panic "Not enough data in slice"].
Proof.
  intros Hread Hshort.
  rewrite (listen_iteration_data net id w data Hread).
  pose proof (len_firstn_le 38 data) as [Hle _].
  rewrite parse_short by lia.
  eexists. split; [ reflexivity | ].
  cbn [trace calls record with_calls after_read]. rewrite <- !app_assoc.
  reflexivity.
Qed.

Lemma listener_short_read_is_fatal_witness :
  exists w' : World,
    listen_iteration (answering (map byte.of_Z [0; 0; 0; 1; 0], None))
      (Some 0%nat) (new_world APPLE_FEEDBACK)
      = (Panicked "Not enough data in slice", w')
    /\ trace w' = trace (new_world APPLE_FEEDBACK)
                  ++ [E_Read 0 38; E_CloseChan;
                      E_Panic "Not enough data in slice"].
Proof.
  apply (listener_short_read_is_fatal
           (answering (map byte.of_Z [0; 0; 0; 1; 0], None)) 0%nat
           (new_world APPLE_FEEDBACK) (map byte.of_Z [0; 0; 0; 1; 0])).
  - reflexivity.
  - vm_compute. reflexivity.
Defined.

Lemma declared_token_length_firstn (data : list byte) :
  declared_token_length (firstn 38 data) = declared_token_length data.
Proof.
  unfold declared_token_length.
  destruct data as [ | b0 [ | b1 [ | b2 [ | b3 [ | b4 [ | b5 rest ] ] ] ] ] ];
    reflexivity.
Qed.

(** X22. The listener cannot take a record whose token is longer than 32
    bytes: its reads bring at most 38 bytes, so a header that declares 33
    to 32767 token bytes is refused as bigger than the buffer, whatever
    the connection had to offer, and the listener closes the channel and
    panics. *)
Theorem listener_long_token_is_fatal
  (net : Net) (id : nat) (w : World) (data : list byte) :
  read_result net (n_Read (calls w)) = (data, None) ->
  6 <= len data ->
  32 < declared_token_length data < 2 ^ 15 ->
  exists w' : World,
    listen_iteration net (Some id) w
      = (Panicked (Error err_token_exceeds_buffer), w')
    /\ trace w' = trace w ++ [E_Read id 38; E_CloseChan;
                              E_Panic (Error err_token_exceeds_buffer)].
Proof.
  intros Hread Hlen Hdecl.
  rewrite (listen_iteration_data net id w data Hread).
  pose proof (len_firstn_le 38 data) as [_ Hcap].
  assert (Hhdr : 6 <= len (firstn 38 data)).
  { unfold len in *. rewrite length_firstn. lia. }
  rewrite parse_rejects_oversized_below_0x8000;
    rewrite ?declared_token_length_firstn; try lia.
  eexists. split; [ reflexivity | ].
  cbn [trace calls record with_calls after_read]. rewrite <- !app_assoc.
  reflexivity.
Qed.

Lemma listener_long_token_is_fatal_witness :
  exists w' : World,
    listen_iteration
      (answering (map byte.of_Z [0; 0; 0; 1; 0; 64] ++ repeat (byte.of_Z 7) 64,
                  None))
      (Some 0%nat) (new_world APPLE_FEEDBACK)
      = (Panicked (Error err_token_exceeds_buffer), w')
    /\ trace w' = trace (new_world APPLE_FEEDBACK)
                  ++ [E_Read 0 38; E_CloseChan;
                      E_Panic (Error err_token_exceeds_buffer)].
Proof.
  apply (listener_long_token_is_fatal
           (answering (map byte.of_Z [0; 0; 0; 1; 0; 64]
                         ++ repeat (byte.of_Z 7) 64, None))
           0%nat (new_world APPLE_FEEDBACK)
           (map byte.of_Z [0; 0; 0; 1; 0; 64] ++ repeat (byte.of_Z 7) 64)).
  - reflexivity.
  - vm_compute. discriminate.
  - vm_compute. split; reflexivity.
Defined.

(** X23. When the read hits [io.EOF] and the first reconnect succeeds,
    the listener makes that one attempt only: it closes the old handle,
    sleeps 30 seconds, connects (which closes the old handle once more,
    dials and shakes hands), lifts the read deadline on the new
    connection and goes on reading from it. *)
Theorem listener_reconnects_after_EOF
  (net : Net) (id : nat) (w : World) (h : tlsConn) (data : list byte) :
  read_result net (n_Read (calls w)) = (data, Some io_EOF) ->
  tlsconn (client w) = Some h ->
  dial_result net (n_Dial (calls w)) = None ->
  handshake_result net (n_Handshake (calls w)) = None ->
  exists w' : World,
    listen_iteration net (Some id) w = (Val (Some (n_Dial (calls w))), w')
    /\ trace w' =
       trace w ++ [E_Read id 38;
                   E_Close (conn_id h); E_Sleep (30 * Second);
                   E_Close (conn_id h); E_Dial (endpoint (client w));
                   E_Handshake (n_Dial (calls w));
                   E_SetReadDeadline (n_Dial (calls w)) None]
    /\ connected (client w') = true
    /\ tlsconn (client w') =
       Some {| conn_id := n_Dial (calls w); handshake_done := true;
               conn_closed := false |}.
Proof.
  destruct w as [[h0 ep rt t m c] [nd nh nc nw nr nn] tr]. go_unfold.
  intros Hread -> Hdial Hhs. destruct h as [hid hs cl].
  unfold listen_iteration. cbn [reconnect_loop bufio_Read].
  unfold read_into, bind at 1. go_unfold. rewrite Hread.
  cbv beta iota zeta delta [is_EOF].
  unfold bufio_NewReader. go_unfold.
  rewrite Hdial. go_unfold. rewrite Hhs. go_unfold.
  eexists. split; [ reflexivity | ]. go_unfold.
  rewrite <- !app_assoc. auto.
Qed.

Lemma listener_reconnects_after_EOF_witness :
  exists w' : World,
    listen_iteration (answering ([], Some io_EOF)) (Some 0%nat)
      (snd (connect (answering ([], Some io_EOF)) (new_world APPLE_FEEDBACK)))
      = (Val (Some 1%nat), w')
    /\ trace w' =
       [E_Dial APPLE_FEEDBACK; E_Handshake 0]
       ++ [E_Read 0 38; E_Close 0; E_Sleep (30 * Second); E_Close 0;
           E_Dial APPLE_FEEDBACK; E_Handshake 1; E_SetReadDeadline 1 None]
    /\ connected (client w') = true
    /\ tlsconn (client w') =
       Some {| conn_id := 1; handshake_done := true; conn_closed := false |}.
Proof.
  apply (listener_reconnects_after_EOF (answering ([], Some io_EOF)) 0%nat
           (snd (connect (answering ([], Some io_EOF))
                   (new_world APPLE_FEEDBACK)))
           {| conn_id := 0; handshake_done := true; conn_closed := false |}
           []);
    reflexivity.
Defined.

Lemma listen_in_order (net : Net) (id : nat)
  (script : list (list byte * ApnsFeedbackMessage)) :
  forall w : World,
    (forall (i : nat) (data : list byte) (msg : ApnsFeedbackMessage),
        nth_error script i = Some (data, msg) ->
        read_result net (n_Read (calls w) + i) = (data, None)
        /\ parseAppleFeedbackMessage (firstn 38 data) = Returns msg) ->
    exists w' : World,
      listen net (length script) (Some id) w = (Val (Some id), w')
      /\ trace w' =
         trace w ++ flat_map (fun dm => [E_Read id 38; E_Send (snd dm)]) script
      /\ n_Read (calls w') = (n_Read (calls w) + length script)%nat.
Proof.
  induction script as [ | [data msg] script IH ]; intros w Hscript.
  - exists w. cbn [listen length flat_map]. rewrite app_nil_r.
    split; [ reflexivity | split; [ reflexivity | lia ] ].
  - destruct (Hscript 0%nat data msg eq_refl) as [Hread Hparse].
    rewrite Nat.add_0_r in Hread.
    pose proof (listen_iteration_data net id w data Hread) as Hturn.
    rewrite Hparse in Hturn.
    destruct (IH (record (E_Send msg) (after_read id w)))
      as (w' & Hrest & Htrace & Hcount).
    { intros i d m Hi.
      replace (n_Read (calls (record (E_Send msg) (after_read id w))) + i)%nat
        with (n_Read (calls w) + S i)%nat
        by (destruct w as [cl [nd nh nc nw nr nn] tr]; cbn; lia).
      apply Hscript. exact Hi. }
    exists w'. cbn [listen length]. unfold bind at 1. rewrite Hturn.
    split; [ exact Hrest | ]. split.
    + rewrite Htrace. cbn [flat_map snd trace record after_read with_calls].
      rewrite <- !app_assoc. reflexivity.
    + rewrite Hcount.
      destruct w as [cl [nd nh nc nw nr nn] tr]. cbn. lia.
Qed.

(** X24. As long as every read brings a buffer the decoder accepts, the
    listener keeps running and sends one message per read, in the order of
    the reads: after as many turns as there are reads in the script, what
    it has added to the trace is, read by read, the read followed by the
    send of that read's message. *)
Theorem listener_sends_in_arrival_order (net : Net) (id : nat)
  (script : list (list byte * ApnsFeedbackMessage)) (w : World) :
  (forall (i : nat) (data : list byte) (msg : ApnsFeedbackMessage),
      nth_error script i = Some (data, msg) ->
      read_result net (n_Read (calls w) + i) = (data, None)
      /\ parseAppleFeedbackMessage (firstn 38 data) = Returns msg) ->
  exists w' : World,
    listen net (length script) (Some id) w = (Val (Some id), w')
    /\ trace w' =
       trace w ++ flat_map (fun dm => [E_Read id 38; E_Send (snd dm)]) script
    /\ n_Read (calls w') = (n_Read (calls w) + length script)%nat.
Proof. apply listen_in_order. Qed.

Lemma listener_sends_in_arrival_order_witness :
  exists w' : World,
    listen two_records 2 (Some 0%nat) (new_world APPLE_FEEDBACK)
      = (Val (Some 0%nat), w')
    /\ trace w' =
       [E_Read 0 38; E_Send {| Time_t := 1; DeviceToken := "abcd" |};
        E_Read 0 38; E_Send {| Time_t := 2; DeviceToken := "ef" |}]
    /\ n_Read (calls w') = 2%nat.
Proof.
  apply (listener_sends_in_arrival_order two_records 0%nat
           [ (map byte.of_Z [0; 0; 0; 1; 0; 2; 171; 205],
              {| Time_t := 1; DeviceToken := "abcd" |});
             (map byte.of_Z [0; 0; 0; 2; 0; 1; 239],
              {| Time_t := 2; DeviceToken := "ef" |}) ]
           (new_world APPLE_FEEDBACK)).
  intros [ | [ | i ] ] data msg Hi; cbn [nth_error] in Hi.
  - injection Hi as <- <-. split; [ reflexivity | vm_compute; reflexivity ].
  - injection Hi as <- <-. split; [ reflexivity | vm_compute; reflexivity ].
  - destruct i; discriminate Hi.
Defined.

(** ** The earlier client *)

Ltac legacy_unfold :=
  cbv beta iota zeta delta
    [Legacy.SendPayload Legacy.Connect Legacy.Close Legacy.AttemptConnection
     Legacy.bind Legacy.ret Legacy.emit Legacy.tick Legacy.get_calls
     Legacy.get_client Legacy.set_tlsconn Legacy.panic Legacy.with_tlsconn
     Legacy.client Legacy.calls Legacy.trace Legacy.tlsconn Legacy.endpoint
     Legacy.ReadTimeout Legacy.new_world Legacy.Client
     tick_Dial tick_Handshake tick_Close tick_Write tick_Read tick_Now
     n_Dial n_Handshake n_Close n_Write n_Read n_Now
     conn_id handshake_done conn_closed tls_Client closed_handle handshaken
     fst snd].

Lemma legacy_pdu (now : Time) (token payload : list byte) :
  bwrite [] [binary.V_uint8 1;
             binary.V_uint32 (uint32 1);
             binary.V_uint32
               (uint32 (Time_Unix (Time_Add now (1 * 3600 * Second))));
             binary.V_uint16 (uint16 (len token));
             binary.V_bytes token;
             binary.V_uint16 (uint16 (len payload));
             binary.V_bytes payload]
  = (fst (createCommandOnePacket now 1 (3600 * Second) token payload), None).
Proof.
  unfold createCommandOnePacket. cbn [bwrite binary.Write fst]. reflexivity.
Qed.

(** X25. The earlier [SendPayload] reports nothing but a failed write:
    on a client with a handle it returns exactly what the [Write] call
    returned, [nil] after a successful write whatever the read brings (an
    error, a rejection, nothing).  It never closes or replaces the handle:
    the client holds the same connection afterwards, closed or open as it
    was, and after a successful write with its handshake completed. *)
Theorem legacy_SendPayload_reports_only_write_errors
  (net : Net) (token payload : list byte) (w : Legacy.World) (h : tlsConn) :
  Legacy.tlsconn (Legacy.client w) = Some h ->
  exists (w' : Legacy.World) (h' : tlsConn),
    Legacy.SendPayload net token payload w
      = (Val (write_result net (n_Write (Legacy.calls w))), w')
    /\ n_Close (Legacy.calls w') = n_Close (Legacy.calls w)
    /\ Legacy.tlsconn (Legacy.client w') = Some h'
    /\ conn_id h' = conn_id h
    /\ conn_closed h' = conn_closed h
    /\ (write_result net (n_Write (Legacy.calls w)) = None ->
        handshake_done h' = true)
    /\ Legacy.endpoint (Legacy.client w') = Legacy.endpoint (Legacy.client w)
    /\ Legacy.ReadTimeout (Legacy.client w')
       = Legacy.ReadTimeout (Legacy.client w).
Proof.
  destruct w as [[h0 ep rt] [nd nh nc nw nr nn] tr]. legacy_unfold.
  intros ->. destruct h as [id hs cl]. rewrite legacy_pdu. legacy_unfold.
  destruct (write_result net nw); legacy_unfold;
    [ do 2 eexists; repeat split; try reflexivity; discriminate | ].
  destruct (read_result net nr) as [data [e | ]]; legacy_unfold;
    [ do 2 eexists; repeat split; reflexivity | ].
  unfold Legacy.report_reply.
  destruct (len (firstn 6 data) >? 0); legacy_unfold;
    [ | do 2 eexists; repeat split; reflexivity ].
  match goal with
  | |- context [negb ?b] => destruct b
  end; cbn [negb]; legacy_unfold; do 2 eexists; repeat split; reflexivity.
Qed.

Lemma legacy_SendPayload_reports_only_write_errors_witness :
  exists (w' : Legacy.World) (h' : tlsConn),
    Legacy.SendPayload (answering (map byte.of_Z [8; 8; 0; 0; 0; 1], None))
      (repeat (byte.of_Z 171) 32) (map byte.of_Z [123; 125])
      (snd (Legacy.Connect (answering (map byte.of_Z [8; 8; 0; 0; 0; 1], None))
              (Legacy.new_world gateway)))
      = (Val None, w')
    /\ n_Close (Legacy.calls w') = 0%nat
    /\ Legacy.tlsconn (Legacy.client w') = Some h'
    /\ conn_id h' = 0%nat
    /\ conn_closed h' = false
    /\ (@None error = None -> handshake_done h' = true)
    /\ Legacy.endpoint (Legacy.client w') = gateway
    /\ Legacy.ReadTimeout (Legacy.client w') = 50 * Millisecond.
Proof.
  apply (legacy_SendPayload_reports_only_write_errors
           (answering (map byte.of_Z [8; 8; 0; 0; 0; 1], None))
           (repeat (byte.of_Z 171) 32) (map byte.of_Z [123; 125])
           (snd (Legacy.Connect
                   (answering (map byte.of_Z [8; 8; 0; 0; 0; 1], None))
                   (Legacy.new_world gateway)))
           (tls_Client 0)).
  reflexivity.
Defined.

(** X26. The packet the earlier [SendPayload] writes is the one
    [createCommandOnePacket] builds for transaction id 1 and an expiration
    of one hour: every notification carries the same id. *)
Theorem legacy_SendPayload_packet
  (net : Net) (token payload : list byte) (w : Legacy.World) (h : tlsConn) :
  Legacy.tlsconn (Legacy.client w) = Some h ->
  exists rest : list Legacy.output,
    Legacy.trace (snd (Legacy.SendPayload net token payload w))
    = Legacy.trace w
      ++ Legacy.Io
           (E_Write (conn_id h)
              (fst (createCommandOnePacket
                      (now_result net (n_Now (Legacy.calls w)))
                      1 (3600 * Second) token payload)))
         :: rest.
Proof.
  destruct w as [[h0 ep rt] [nd nh nc nw nr nn] tr]. legacy_unfold.
  intros ->. rewrite legacy_pdu. legacy_unfold.
  destruct (write_result net nw); legacy_unfold;
    [ eexists; reflexivity | ].
  destruct (read_result net nr) as [data [e | ]]; legacy_unfold;
    [ rewrite <- !app_assoc; eexists; reflexivity | ].
  unfold Legacy.report_reply.
  destruct (len (firstn 6 data) >? 0); legacy_unfold;
    [ | rewrite <- !app_assoc; eexists; reflexivity ].
  match goal with
  | |- context [negb ?b] => destruct b
  end; cbn [negb]; legacy_unfold; rewrite <- !app_assoc; eexists; reflexivity.
Qed.

Lemma legacy_SendPayload_packet_witness :
  exists rest : list Legacy.output,
    Legacy.trace
      (snd (Legacy.SendPayload (answering ([], None))
              (repeat (byte.of_Z 171) 32) (map byte.of_Z [123; 125])
              (snd (Legacy.Connect (answering ([], None))
                      (Legacy.new_world gateway)))))
    = Legacy.trace (snd (Legacy.Connect (answering ([], None))
                           (Legacy.new_world gateway)))
      ++ Legacy.Io
           (E_Write 0
              (fst (createCommandOnePacket (1351555200 * Second)
                      1 (3600 * Second)
                      (repeat (byte.of_Z 171) 32) (map byte.of_Z [123; 125]))))
         :: rest.
Proof.
  apply (legacy_SendPayload_packet (answering ([], None))
           (repeat (byte.of_Z 171) 32) (map byte.of_Z [123; 125])
           (snd (Legacy.Connect (answering ([], None))
                   (Legacy.new_world gateway)))
           (tls_Client 0)).
  reflexivity.
Defined.

(** X27. The earlier [Connect] dials first.  A refused dial returns the
    error and leaves the client, old handle included, as it was; an
    accepted dial closes the old handle if there is one and installs the
    new connection, on which no handshake has been made. *)
Theorem legacy_Connect_dials_first (net : Net) (w : Legacy.World) :
  match dial_result net (n_Dial (Legacy.calls w)) with
  | Some e =>
      fst (Legacy.Connect net w) = Val (Some e)
      /\ Legacy.client (snd (Legacy.Connect net w)) = Legacy.client w
      /\ Legacy.trace (snd (Legacy.Connect net w))
         = Legacy.trace w
           ++ [Legacy.Io (E_Dial (Legacy.endpoint (Legacy.client w)))]
  | None =>
      fst (Legacy.Connect net w) = Val None
      /\ Legacy.tlsconn (Legacy.client (snd (Legacy.Connect net w)))
         = Some {| conn_id := n_Dial (Legacy.calls w);
                   handshake_done := false; conn_closed := false |}
      /\ Legacy.trace (snd (Legacy.Connect net w))
         = Legacy.trace w
           ++ Legacy.Io (E_Dial (Legacy.endpoint (Legacy.client w)))
              :: match Legacy.tlsconn (Legacy.client w) with
                 | Some old => [Legacy.Io (E_Close (conn_id old))]
                 | None => []
                 end
  end.
Proof.
  destruct w as [[h ep rt] [nd nh nc nw nr nn] tr]. legacy_unfold.
  destruct (dial_result net nd); legacy_unfold.
  - auto.
  - destruct h as [[id hs cl] | ]; legacy_unfold;
      rewrite <- ?app_assoc; auto.
Qed.

(** X28. On a client that never connected, the earlier [Close],
    [AttemptConnection] and [SendPayload] dereference the nil handle and
    panic; [SendPayload] has built its packet by then but written
    nothing. *)
Theorem legacy_needs_Connect
  (net : Net) (token payload : list byte) (w : Legacy.World) :
  Legacy.tlsconn (Legacy.client w) = None ->
  fst (Legacy.Close net w) = Panicked nil_dereference
  /\ fst (Legacy.AttemptConnection net w) = Panicked nil_dereference
  /\ fst (Legacy.SendPayload net token payload w) = Panicked nil_dereference
  /\ n_Write (Legacy.calls (snd (Legacy.SendPayload net token payload w)))
     = n_Write (Legacy.calls w).
Proof.
  destruct w as [[h ep rt] [nd nh nc nw nr nn] tr]. legacy_unfold.
  intros ->. rewrite legacy_pdu. legacy_unfold. auto.
Qed.

Lemma legacy_needs_Connect_witness :
  fst (Legacy.Close (answering ([], None)) (Legacy.new_world gateway))
    = Panicked nil_dereference
  /\ fst (Legacy.AttemptConnection (answering ([], None))
            (Legacy.new_world gateway)) = Panicked nil_dereference
  /\ fst (Legacy.SendPayload (answering ([], None)) []
            (map byte.of_Z [123; 125]) (Legacy.new_world gateway))
     = Panicked nil_dereference
  /\ n_Write (Legacy.calls
                (snd (Legacy.SendPayload (answering ([], None)) []
                        (map byte.of_Z [123; 125]) (Legacy.new_world gateway))))
     = n_Write (Legacy.calls (Legacy.new_world gateway)).
Proof.
  apply (legacy_needs_Connect (answering ([], None)) []
           (map byte.of_Z [123; 125]) (Legacy.new_world gateway)).
  reflexivity.
Defined.

(** X29. The earlier [SendPayload] looks at the status byte as soon as
    one byte has been read: a reply of a single byte, whatever that byte
    is, is printed as "OK" with its hex, because the status is taken from
    the second byte of the zeroed array. *)
Theorem legacy_one_byte_reply_prints_OK
  (net : Net) (token payload : list byte) (w : Legacy.World) (h : tlsConn)
  (b : byte) :
  Legacy.tlsconn (Legacy.client w) = Some h ->
  write_result net (n_Write (Legacy.calls w)) = None ->
  read_result net (n_Read (Legacy.calls w)) = ([b], None) ->
  fst (Legacy.SendPayload net token payload w) = Val None
  /\ last (Legacy.trace (snd (Legacy.SendPayload net token payload w)))
          (Legacy.Printed EmptyString)
     = Legacy.Printed (Legacy.Printf_OK (hex.EncodeToString [b])).
Proof.
  destruct w as [[h0 ep rt] [nd nh nc nw nr nn] tr]. legacy_unfold.
  intros -> Hwrite Hread. rewrite legacy_pdu. legacy_unfold.
  rewrite Hwrite. legacy_unfold. rewrite Hread. legacy_unfold.
  cbn [firstn length Nat.sub repeat app].
  unfold Legacy.report_reply.
  change (len [b] >? 0) with true. cbv iota.
  cbn [nth]. change (uint8 (byte.unsigned (byte.of_Z 0)) =? 0) with true.
  cbn [negb]. legacy_unfold.
  split; [ reflexivity | ].
  rewrite last_last. reflexivity.
Qed.

Lemma legacy_one_byte_reply_prints_OK_witness :
  fst (Legacy.SendPayload (answering ([byte.of_Z 8], None))
         (repeat (byte.of_Z 171) 32) (map byte.of_Z [123; 125])
         (snd (Legacy.Connect (answering ([byte.of_Z 8], None))
                 (Legacy.new_world gateway)))) = Val None
  /\ last (Legacy.trace
             (snd (Legacy.SendPayload (answering ([byte.of_Z 8], None))
                     (repeat (byte.of_Z 171) 32) (map byte.of_Z [123; 125])
                     (snd (Legacy.Connect (answering ([byte.of_Z 8], None))
                             (Legacy.new_world gateway))))))
          (Legacy.Printed EmptyString)
     = Legacy.Printed (Legacy.Printf_OK (hex.EncodeToString [byte.of_Z 8])).
Proof.
  apply (legacy_one_byte_reply_prints_OK (answering ([byte.of_Z 8], None))
           (repeat (byte.of_Z 171) 32) (map byte.of_Z [123; 125])
           (snd (Legacy.Connect (answering ([byte.of_Z 8], None))
                   (Legacy.new_world gateway)))
           (tls_Client 0) (byte.of_Z 8));
    reflexivity.
Defined.


(** ** Trailing bytes after a complete record *)



